(** * Hashnode blog pull action: templating, validation and file merge

    A shallow embedding of the content-templating, validation, date
    formatting and README-merge code of the action, with the properties
    of the specification stated and settled against it.

    Source files embedded here:
    - [src/controllers/BlogController.js]   ([updateFileContent])
    - [src/services/TemplateService.js]     ([generateContent], [processPost],
      the five layouts)
    - [src/helpers/TemplateHelper.js]       ([escapeHtml], [generateLinkHtml],
      [generateImageHtml])
    - [src/helpers/ValidationHelper.js]     ([validatePostCount])
    - [src/helpers/DateHelper.js]           ([formatDate])

    JavaScript strings are modelled as [string] (a sequence of code units,
    one [ascii] each); [String.length] is the JS [length]. *)

From Stdlib Require Import ZArith QArith Lia Ascii DecimalString.
From Stdlib Require String.
From stdpp Require Import base list strings.

Local Open Scope Z_scope.

(* ===================================================================== *)
(** ** JavaScript string primitives *)
(* ===================================================================== *)

Module JsString.

(** The line feed and double quote code units, written out because string
    literals here have no escape sequences. *)
Definition nl : string := String (ascii_of_nat 10) "".
Definition dq : string := String (ascii_of_nat 34) "".

(** [s.substring(0, n)] for a natural [n]: the first [n] code units. *)
Fixpoint str_take (n : nat) (s : string) : string :=
  match n, s with
  | S n', String c s' => String c (str_take n' s')
  | _, _ => ""
  end.

(** [s.substring(n)] for a natural [n]: everything from index [n] on. *)
Fixpoint str_drop (n : nat) (s : string) : string :=
  match n, s with
  | S n', String _ s' => str_drop n' s'
  | _, _ => s
  end.

(** Clamping of a [substring] argument into [0 .. length]. *)
Definition clamp (s : string) (i : Z) : nat :=
  Nat.min (Z.to_nat i) (String.length s).

(** [String.prototype.substring(start, end)]: both indices are clamped to
    [0 .. length] and swapped when [start > end]. *)
Definition substring (s : string) (start end_ : Z) : string :=
  let a := clamp s start in
  let b := clamp s end_ in
  str_take (Nat.max a b - Nat.min a b) (str_drop (Nat.min a b) s).

(** [String.prototype.substring(start)]: [end] defaults to the length. *)
Definition substring_from (s : string) (start : Z) : string :=
  substring s start (Z.of_nat (String.length s)).

(** [s.startsWith(p)]. *)
Fixpoint starts_with (p s : string) : bool :=
  match p, s with
  | "", _ => true
  | String a p', String b s' => if Ascii.eqb a b then starts_with p' s' else false
  | String _ _, "" => false
  end.

(** The search shared by [indexOf] and [includes]: the least position at
    which [p] occurs in [s]. *)
Fixpoint find_first (p s : string) : option nat :=
  if starts_with p s then Some 0%nat
  else match s with
       | "" => None
       | String _ s' => option_map S (find_first p s')
       end.

(** [s.indexOf(p)]: position of the first occurrence, or -1. *)
Definition indexOf (s p : string) : Z :=
  match find_first p s with
  | Some i => Z.of_nat i
  | None => -1
  end.

(** [s.includes(p)]. *)
Definition includes (s p : string) : bool :=
  match find_first p s with
  | Some _ => true
  | None => false
  end.

(** Membership of a code unit in a string. *)
Fixpoint mem (c : ascii) (s : string) : bool :=
  match s with
  | "" => false
  | String a s' => if Ascii.eqb c a then true else mem c s'
  end.

(** The white space and line terminator code units among those of the
    model (0 to 255): tab, LF, VT, FF, CR, space and the no-break space
    U+00A0. This is the class stripped by [trim] and matched by [\s]. *)
Definition is_white_space (c : ascii) : bool :=
  Ascii.is_space c || Ascii.eqb c (ascii_of_nat 160).

(** [s.trimStart()], [s.trimEnd()] and [s.trim()]. *)
Fixpoint trimStart (s : string) : string :=
  match s with
  | String c s' => if is_white_space c then trimStart s' else s
  | "" => ""
  end.

Definition trimEnd (s : string) : string :=
  String.rev (trimStart (String.rev s)).

Definition trim (s : string) : string := trimEnd (trimStart s).

(** [parts.join(sep)]. *)
Definition join (sep : string) (parts : list string) : string :=
  String.concat sep parts.

(** A template literal: its pieces concatenated. *)
Definition template (parts : list string) : string :=
  String.concat "" parts.

(** [String(n)] / [`${n}`] for an integer-valued number. *)
Definition of_Z (n : Z) : string :=
  NilZero.string_of_int (Z.to_int n).

(** [p] occurs in [s] as a contiguous substring. *)
Definition occurs (p s : string) : Prop :=
  exists a b, s = a +:+ p +:+ b.

(** [s] is [a], then its first occurrence of [p], then [b]. *)
Definition first_occurrence (p s a b : string) : Prop :=
  s = a +:+ p +:+ b /\
  forall a' b', s = a' +:+ p +:+ b' -> (String.length a <= String.length a')%nat.

(** Every code unit of [s] satisfies [f]; some code unit does. These stand
    for a character class anchored over the whole string, and for a search
    for one character of a class. *)
Fixpoint all_chars (f : ascii -> bool) (s : string) : bool :=
  match s with
  | "" => true
  | String c s' => f c && all_chars f s'
  end.

Fixpoint any_char (f : ascii -> bool) (s : string) : bool :=
  match s with
  | "" => false
  | String c s' => f c || any_char f s'
  end.

(** [s.endsWith(p)]. *)
Definition ends_with (p s : string) : bool :=
  starts_with (String.rev p) (String.rev s).

(** A code unit within [lo .. hi]. *)
Definition in_range (lo hi c : ascii) : bool :=
  (N_of_ascii lo <=? N_of_ascii c)%N && (N_of_ascii c <=? N_of_ascii hi)%N.

End JsString.

Import JsString.

(* ===================================================================== *)
(** ** JavaScript values, completions *)
(* ===================================================================== *)

(** A JS number: NaN, the two infinities, or a finite value. Every finite
    double is a rational, and the code below only compares numbers and
    tests integrality, so finite values are modelled as [Q]. *)
Inductive JsNumber : Type :=
| NaN
| PosInf
| NegInf
| Finite (q : Q).

Inductive JsValue : Type :=
| JsUndefined
| JsNull
| JsBool (b : bool)
| JsNum (n : JsNumber)
| JsStr (s : string)
| JsObject.

(** The global [isNaN], applied to a number. *)
Definition isNaN (n : JsNumber) : bool :=
  match n with NaN => true | _ => false end.

(** [n < k] and [n > k] against an integer literal [k]; any comparison
    with NaN is false. *)
Definition num_lt (n : JsNumber) (k : Z) : bool :=
  match n with
  | NaN => false
  | PosInf => false
  | NegInf => true
  | Finite q => negb (Qle_bool (inject_Z k) q)
  end.

Definition num_gt (n : JsNumber) (k : Z) : bool :=
  match n with
  | NaN => false
  | PosInf => true
  | NegInf => false
  | Finite q => negb (Qle_bool q (inject_Z k))
  end.

(** [Number.isInteger]. *)
Definition isInteger (n : JsNumber) : bool :=
  match n with
  | Finite q => (Qnum q mod Zpos (Qden q) =? 0)%Z
  | _ => false
  end.

(** ToBoolean. *)
Definition truthy (v : JsValue) : bool :=
  match v with
  | JsUndefined | JsNull => false
  | JsBool b => b
  | JsNum NaN => false
  | JsNum (Finite q) => negb (Qeq_bool q 0)
  | JsNum _ => true
  | JsStr s => negb (String.eqb s "")
  | JsObject => true
  end.

(** ToBoolean of a string, and [a || b] on strings. *)
Definition str_truthy (s : string) : bool := negb (String.eqb s "").

Definition str_or (a b : string) : string :=
  if str_truthy a then a else b.

(** The outcome of running a piece of code that may throw. *)
Inductive Completion (A : Type) : Type :=
| Normal (a : A)
| Throw (message : string).
Arguments Normal {A} a.
Arguments Throw {A} message.

Definition cbind {A B} (c : Completion A) (k : A -> Completion B) : Completion B :=
  match c with
  | Normal a => k a
  | Throw e => Throw e
  end.

(** [try { body } catch (error) { handler }] *)
Definition try_catch {A} (body : Completion A) (handler : string -> Completion A)
  : Completion A :=
  match body with
  | Normal a => Normal a
  | Throw e => handler e
  end.

Declare Scope completion_scope.
Delimit Scope completion_scope with completion.
Notation "'do' x <- c ; k" := (cbind c (fun x => k))
  (at level 10, x name, c at level 100, k at level 200) : completion_scope.

(* ===================================================================== *)
(** ** Data model: configuration and post records *)
(* ===================================================================== *)

(** [ConfigHelper.getConfig]'s object. The numeric options are produced by
    [parseInt] and are integers; [validateNumericOption] rejects anything
    else before rendering. *)
Record Config : Type := mkConfig {
  publicationName : string;
  postCount : Z;
  displayFormat : string;
  filename : string;
  cardWidth : Z;
  imageWidth : Z;
  imageHeight : Z;
  dateFormat : string;
  descriptionLength : Z;
  customCss : string;
  sectionTitle : string;
  noPostsMessage : string;
  targetBranch : string
}.

(** The defaults of [ConfigHelper.getConfig], for a publication named
    [my-awesome-blog] (the default section title without its emoji). *)
Definition exampleConfig : Config :=
  mkConfig "my-awesome-blog" 6 "stacked-left" "README.md" 500 100 100
           "MMM DD, YYYY" 200 "" "Latest Blog Posts" "No blog posts found." "main".

Definition with_displayFormat (fmt : string) (c : Config) : Config :=
  mkConfig (publicationName c) (postCount c) fmt (filename c) (cardWidth c)
           (imageWidth c) (imageHeight c) (dateFormat c) (descriptionLength c)
           (customCss c) (sectionTitle c) (noPostsMessage c) (targetBranch c).

Definition with_noPostsMessage (msg : string) (c : Config) : Config :=
  mkConfig (publicationName c) (postCount c) (displayFormat c) (filename c)
           (cardWidth c) (imageWidth c) (imageHeight c) (dateFormat c)
           (descriptionLength c) (customCss c) (sectionTitle c) msg
           (targetBranch c).

Definition with_descriptionLength (n : Z) (c : Config) : Config :=
  mkConfig (publicationName c) (postCount c) (displayFormat c) (filename c)
           (cardWidth c) (imageWidth c) (imageHeight c) (dateFormat c) n
           (customCss c) (sectionTitle c) (noPostsMessage c) (targetBranch c).

Definition with_dateFormat (fmt : string) (c : Config) : Config :=
  mkConfig (publicationName c) (postCount c) (displayFormat c) (filename c)
           (cardWidth c) (imageWidth c) (imageHeight c) fmt
           (descriptionLength c) (customCss c) (sectionTitle c)
           (noPostsMessage c) (targetBranch c).

Record Author : Type := mkAuthor {
  author_name : string;
  author_username : string
}.

Record Tag : Type := mkTag {
  tag_name : string;
  tag_slug : string
}.

(** The object built by [HashnodeService.transformPost]. *)
Record Post : Type := mkPost {
  post_id : string;
  title : string;
  description : string;
  slug : string;
  url : string;
  publishedAt : JsValue;
  formattedDate : string;
  coverImage : string;
  author : Author;
  tags : list Tag;
  readTime : Z
}.

(** A post as [transformPost] builds it, and one whose title carries
    markup. *)
Definition examplePost : Post :=
  mkPost "65a1" "Hello world" "A first post about nothing in particular."
         "hello-world" "https://blog.example/hello-world"
         (JsStr "2024-01-15T10:00:00.000Z") "Jan 15, 2024" ""
         (mkAuthor "Ann" "ann") [mkTag "General" "general"] 3.

Definition scriptPost : Post :=
  mkPost "65a2" "<script>alert(1)</script>" "Tom & Jerry's <b>post</b>"
         "xss" "https://blog.example/xss"
         (JsStr "2024-01-16T10:00:00.000Z") "Jan 16, 2024"
         "https://img.example/cover.png"
         (mkAuthor "Ann" "ann") [] 1.

Definition set_description (v : string) (p : Post) : Post :=
  mkPost (post_id p) (title p) v (slug p) (url p) (publishedAt p)
         (formattedDate p) (coverImage p) (author p) (tags p) (readTime p).

Definition set_coverImage (v : string) (p : Post) : Post :=
  mkPost (post_id p) (title p) (description p) (slug p) (url p) (publishedAt p)
         (formattedDate p) v (author p) (tags p) (readTime p).

(* ===================================================================== *)
(** ** The object store *)
(* ===================================================================== *)

(** Post objects live in a store and are passed around by reference: a
    reference is an index into the store, allocation appends. Code that runs
    against the store is a state transformer that fails ([None]) only on a
    dangling reference, which JS cannot produce. *)
Definition loc : Type := nat.
Definition heap : Type := list Post.
Definition St (A : Type) : Type := heap -> option (A * heap).

Definition st_ret {A} (a : A) : St A := fun h => Some (a, h).

Definition st_bind {A B} (m : St A) (k : A -> St B) : St B :=
  fun h => match m h with
           | Some (a, h') => k a h'
           | None => None
           end.

Declare Scope st_scope.
Delimit Scope st_scope with st.
Notation "'let*' x := m 'in' k" := (st_bind m (fun x => k))
  (at level 10, x name, m at level 100, k at level 200) : st_scope.
Notation "m ;;; k" := (st_bind m (fun _ => k))
  (at level 100, k at level 200, right associativity) : st_scope.

(** Reading the object behind a reference. *)
Definition load (l : loc) : St Post :=
  fun h => match h !! l with
           | Some o => Some (o, h)
           | None => None
           end.

(** [{ ...o }]: a new object with the same own properties. *)
Definition alloc (o : Post) : St loc :=
  fun h => Some (length h, h ++ [o]).

(** [l.field = v], as an update of the object behind [l]. *)
Definition assign (l : loc) (f : Post -> Post) : St unit :=
  fun h => match h !! l with
           | Some o => Some (tt, <[l := f o]> h)
           | None => None
           end.

(** [arr.map(f)] for an effectful callback, left to right. *)
Fixpoint array_map {A B} (f : A -> St B) (arr : list A) : St (list B) :=
  match arr with
  | [] => st_ret []
  | x :: rest =>
      (let* y := f x in
       let* ys := array_map f rest in
       st_ret (y :: ys))%st
  end.

(* ===================================================================== *)
(** ** TemplateHelper *)
(* ===================================================================== *)

Module TemplateHelper.

(** [htmlEscapes[match]] for one code unit: the five characters of the
    regular expression are replaced, every other one is kept. *)
Definition escape_char (c : ascii) : string :=
  if Ascii.eqb c "&" then "&amp;"
  else if Ascii.eqb c "<" then "&lt;"
  else if Ascii.eqb c ">" then "&gt;"
  else if Ascii.eqb c (ascii_of_nat 34) then "&quot;"
  else if Ascii.eqb c "'" then "&#39;"
  else String c "".

(** [escapeHtml(text)] on a string argument: a global replace of the five
    special characters. *)
Fixpoint escapeHtml (text : string) : string :=
  match text with
  | "" => ""
  | String c rest => escape_char c +:+ escapeHtml rest
  end.

(** The [options] argument of [generateLinkHtml], with its defaults. *)
Record LinkOptions : Type := mkLinkOptions {
  link_target : string;
  link_rel : string;
  link_className : string;
  link_style : string
}.

Definition defaultLinkOptions : LinkOptions :=
  mkLinkOptions "" "" "" "text-decoration: none; color: #1a1a1a;".

Definition attr (name value : string) : string :=
  if str_truthy value
  then template [" "; name; "="; dq; value; dq]
  else "".

Definition generateLinkHtml (href text : string) (options : LinkOptions) : string :=
  let targetAttr := attr "target" (link_target options) in
  let relAttr := attr "rel" (link_rel options) in
  let classAttr := attr "class" (link_className options) in
  let styleAttr := attr "style" (link_style options) in
  template ["<a href="; dq; href; dq; targetAttr; relAttr; classAttr; styleAttr;
            ">"; escapeHtml text; "</a>"].

(** The [options] argument of [generateImageHtml], with its defaults. *)
Record ImageOptions : Type := mkImageOptions {
  img_width : Z;
  img_height : Z;
  img_borderRadius : string;
  img_objectFit : string;
  img_className : string;
  img_style : string
}.

Definition defaultImageOptions : ImageOptions :=
  mkImageOptions 100 100 "6px" "cover" "" "".

Definition generateImageHtml (src alt : string) (options : ImageOptions) : string :=
  let styles :=
    join "; "
      (filter (fun s => str_truthy s = true)
         [template ["width: "; of_Z (img_width options); "px"];
          template ["height: "; of_Z (img_height options); "px"];
          template ["object-fit: "; img_objectFit options];
          template ["border-radius: "; img_borderRadius options];
          img_style options]) in
  let classAttr := attr "class" (img_className options) in
  template ["<img src="; dq; src; dq; " alt="; dq; escapeHtml alt; dq; classAttr;
            " style="; dq; styles; dq; " />"].

(** [truncateText(text, length, suffix)] on a string argument; the callers'
    defaults are [length = 200] and [suffix = '...']. *)
Definition truncateText (text : string) (length : Z) (suffix : string) : string :=
  if negb (str_truthy text) then ""
  else if Z.of_nat (String.length text) <=? length then text
  else trim (substring text 0 length) +:+ suffix.

End TemplateHelper.

(* ===================================================================== *)
(** ** TemplateService *)
(* ===================================================================== *)

Module TemplateService.

Definition placeholderImage : string :=
  "https://via.placeholder.com/400x200/4F46E5/FFFFFF?text=Blog+Post".

(** [processPost(post, config)]: copies the post object, then truncates the
    copy's description and fills in the copy's cover image. Returns the
    reference to the copy. *)
Definition processPost (post : loc) (config : Config) : St loc :=
  (let* o := load post in
   let* processed := alloc o in
   let* p1 := load processed in
   (if str_truthy (description p1)
       && (Z.of_nat (String.length (description p1)) >? descriptionLength config)
    then
      let* p2 := load processed in
      assign processed
        (set_description
           (substring (description p2) 0 (descriptionLength config) +:+ "..."))
    else st_ret tt) ;;;
   let* p3 := load processed in
   (if negb (str_truthy (coverImage p3))
    then assign processed (set_coverImage placeholderImage)
    else st_ret tt) ;;;
   st_ret processed)%st.

(** The contents [processPost] leaves in the copy of an object [o]. *)
Definition processedCopy (config : Config) (o : Post) : Post :=
  let o1 :=
    if str_truthy (description o)
       && (Z.of_nat (String.length (description o)) >? descriptionLength config)
    then set_description
           (substring (description o) 0 (descriptionLength config) +:+ "...") o
    else o in
  if negb (str_truthy (coverImage o1))
  then set_coverImage placeholderImage o1
  else o1.

(** The callback of [generateCards]: one card from one post object. *)
Definition card (config : Config) (post : Post) : string :=
  trim (template
    [nl;
     "<div style="; dq;
       "border: 1px solid #e1e5e9; border-radius: 8px; padding: 16px; margin: 16px 0; max-width: ";
       of_Z (cardWidth config); "px; "; customCss config; dq; ">"; nl;
     "  <img src="; dq; coverImage post; dq; " alt="; dq; title post; dq;
       " style="; dq;
       "width: 100%; height: 200px; object-fit: cover; border-radius: 6px; margin-bottom: 12px;";
       dq; " />"; nl;
     "  <h3 style="; dq; "margin: 0 0 8px 0; font-size: 18px;"; dq; ">"; nl;
     "    <a href="; dq; url post; dq; " style="; dq;
       "text-decoration: none; color: #1a1a1a;"; dq; ">"; title post; "</a>"; nl;
     "  </h3>"; nl;
     "  <p style="; dq; "margin: 0 0 8px 0; color: #6b7280; font-size: 14px;"; dq; ">";
       formattedDate post; "</p>"; nl;
     "  <p style="; dq;
       "margin: 0; color: #4b5563; font-size: 14px; line-height: 1.5;"; dq; ">";
       description post; "</p>"; nl;
     "</div>"]).

Definition generateCards (posts : list loc) (config : Config) : St string :=
  (let* cards := array_map (fun post => let* o := load post in st_ret (card config o)) posts in
   st_ret (join (nl +:+ nl) cards))%st.

(** The callback of [generateStackedCards]. [imagePosition] is ['left'] or
    ['right']. *)
Definition stackedCard (config : Config) (imagePosition : string) (post : Post)
  : string :=
  let imageElement :=
    template
      ["<img src="; dq; coverImage post; dq; " alt="; dq; title post; dq;
       " style="; dq; "width: "; of_Z (imageWidth config); "px; height: ";
       of_Z (imageHeight config);
       "px; object-fit: cover; border-radius: 6px;"; dq; " />"] in
  let contentElement :=
    trim (template
      [nl;
       "<div style="; dq; "flex: 1;"; dq; ">"; nl;
       "  <h3 style="; dq; "margin: 0 0 4px 0; font-size: 16px;"; dq; ">"; nl;
       "    <a href="; dq; url post; dq; " style="; dq;
         "text-decoration: none; color: #1a1a1a;"; dq; ">"; title post; "</a>"; nl;
       "  </h3>"; nl;
       "  <p style="; dq; "margin: 0 0 4px 0; color: #6b7280; font-size: 12px;"; dq; ">";
         formattedDate post; "</p>"; nl;
       "  <p style="; dq;
         "margin: 0; color: #4b5563; font-size: 13px; line-height: 1.4;"; dq; ">";
         description post; "</p>"; nl;
       "</div>"]) in
  let flexDirection :=
    if String.eqb imagePosition "left" then "row" else "row-reverse" in
  let gap :=
    if String.eqb imagePosition "left" then "0 12px 0 0" else "0 0 0 12px" in
  trim (template
    [nl;
     "<div style="; dq; "display: flex; flex-direction: "; flexDirection;
       "; align-items: flex-start; padding: 12px; border: 1px solid #e1e5e9; border-radius: 8px; margin: 8px 0; ";
       customCss config; dq; ">"; nl;
     "  <div style="; dq; "margin: "; gap; ";"; dq; ">"; nl;
     "    "; imageElement; nl;
     "  </div>"; nl;
     "  "; contentElement; nl;
     "</div>"]).

Definition generateStackedCards (posts : list loc) (config : Config)
    (imagePosition : string) : St string :=
  (let* cards :=
     array_map (fun post => let* o := load post in
                            st_ret (stackedCard config imagePosition o)) posts in
   st_ret (join (nl +:+ nl) cards))%st.

(** The callback of [generateList]. *)
Definition listItem (post : Post) : string :=
  template ["- **"; formattedDate post; "**: ["; title post; "]("; url post; ")"].

Definition generateList (posts : list loc) (config : Config) : St string :=
  (let* listItems := array_map (fun post => let* o := load post in st_ret (listItem o)) posts in
   st_ret (join nl listItems))%st.

Definition thStyle : string :=
  "border: 1px solid #e1e5e9; padding: 12px; text-align: left; background-color: #f8f9fa; font-weight: 600;".
Definition tdStyle : string :=
  "border: 1px solid #e1e5e9; padding: 12px; vertical-align: top;".

(** The callback of [generateTable]: one row. *)
Definition tableRow (config : Config) (post : Post) : string :=
  let imageCell :=
    template
      ["<img src="; dq; coverImage post; dq; " alt="; dq; title post; dq;
       " style="; dq; "width: "; of_Z (imageWidth config); "px; height: ";
       of_Z (imageHeight config);
       "px; object-fit: cover; border-radius: 4px;"; dq; " />"] in
  let titleCell :=
    template
      ["<a href="; dq; url post; dq; " style="; dq;
       "text-decoration: none; color: #1a1a1a; font-weight: 600;"; dq; ">";
       title post; "</a><br/><span style="; dq;
       "color: #6b7280; font-size: 14px;"; dq; ">"; description post; "</span>"] in
  template
    ["<tr>"; nl;
     "          <td style="; dq; tdStyle; dq; ">"; formattedDate post; "</td>"; nl;
     "          <td style="; dq; tdStyle; dq; ">"; imageCell; "</td>"; nl;
     "          <td style="; dq; tdStyle; dq; ">"; titleCell; "</td>"; nl;
     "        </tr>"].

(** [generateTable]; the array [rows] is interpolated into the template,
    which joins it with commas. *)
Definition generateTable (posts : list loc) (config : Config) : St string :=
  let tableStyle :=
    template ["border-collapse: collapse; width: 100%; margin: 16px 0; ";
              customCss config] in
  let headerRow :=
    template
      ["<tr>"; nl;
       "        <th style="; dq; thStyle; dq; ">Date</th>"; nl;
       "        <th style="; dq; thStyle; dq; ">Image</th>"; nl;
       "        <th style="; dq; thStyle; dq; ">Title & Description</th>"; nl;
       "      </tr>"] in
  (let* rows := array_map (fun post => let* o := load post in st_ret (tableRow config o)) posts in
   st_ret (trim (template
     ["<table style="; dq; tableStyle; dq; ">"; nl;
      "  <thead>"; nl;
      "    "; headerRow; nl;
      "  </thead>"; nl;
      "  <tbody>"; nl;
      "    "; join "," rows; nl;
      "  </tbody>"; nl;
      "</table>"])))%st.

(** [generateContent(posts, config)]. The logger calls write to the console
    only and are left out. *)
Definition generateContent (posts : list loc) (config : Config) : St string :=
  if (length posts =? 0)%nat
  then st_ret (str_or (noPostsMessage config) "No blog posts found.")
  else
    (let* processedPosts := array_map (fun post => processPost post config) posts in
     if String.eqb (displayFormat config) "card" then
       generateCards processedPosts config
     else if String.eqb (displayFormat config) "stacked-left" then
       generateStackedCards processedPosts config "left"
     else if String.eqb (displayFormat config) "stacked-right" then
       generateStackedCards processedPosts config "right"
     else if String.eqb (displayFormat config) "list" then
       generateList processedPosts config
     else if String.eqb (displayFormat config) "table" then
       generateTable processedPosts config
     else
       generateStackedCards processedPosts config "left")%st.

End TemplateService.

(* ===================================================================== *)
(** ** ValidationHelper *)
(* ===================================================================== *)

Module ValidationHelper.

(** The number behind a value whose [typeof] is ['number']. *)
Definition as_number (v : JsValue) : option JsNumber :=
  match v with
  | JsNum n => Some n
  | _ => None
  end.

(** The number value of an integer. *)
Definition num (n : Z) : JsValue := JsNum (Finite (inject_Z n)).

(** [validatePostCount(postCount)]: returns normally or throws an [Error]
    with the given message. *)
Definition validatePostCount (postCount : JsValue) : Completion unit :=
  match as_number postCount with
  | None => Throw "Post count must be a valid number"
  | Some n =>
      if isNaN n then Throw "Post count must be a valid number"
      else if num_lt n 1 then Throw "Post count must be at least 1"
      else if num_gt n 12 then Throw "Post count cannot exceed 12"
      else if negb (isInteger n) then Throw "Post count must be an integer"
      else Normal tt
  end.

(** The string behind a value whose [typeof] is ['string']. *)
Definition as_string (v : JsValue) : option string :=
  match v with
  | JsStr s => Some s
  | _ => None
  end.

(** The class [[a-zA-Z0-9-._]]. *)
Definition is_name_char (c : ascii) : bool :=
  in_range "a" "z" c || in_range "A" "Z" c || in_range "0" "9" c
  || Ascii.eqb c "-" || Ascii.eqb c "." || Ascii.eqb c "_".

(** [validatePublicationName(publicationName)]. The regular expression
    [/^[a-zA-Z0-9-._]+$/] holds of a non-empty string made of class
    characters only. *)
Definition validatePublicationName (publicationName : JsValue) : Completion unit :=
  match as_string publicationName with
  | None => Throw "Publication name is required and must be a string"
  | Some s =>
      if negb (truthy publicationName)
      then Throw "Publication name is required and must be a string"
      else if (String.length (trim s) =? 0)%nat
      then Throw "Publication name cannot be empty"
      else if negb (str_truthy s && all_chars is_name_char s)
      then Throw "Publication name contains invalid characters. Use only letters, numbers, hyphens, dots, and underscores."
      else if (100 <? String.length s)%nat
      then Throw "Publication name is too long (max 100 characters)"
      else Normal tt
  end.

(** [ConfigHelper.getSupportedFormats()]. *)
Definition getSupportedFormats : list string :=
  ["card"; "stacked-left"; "stacked-right"; "list"; "table"].

(** [arr.includes(s)] on an array of strings. *)
Definition array_includes (arr : list string) (s : string) : bool :=
  existsb (String.eqb s) arr.

(** [validateDisplayFormat(displayFormat)]. *)
Definition validateDisplayFormat (displayFormat : JsValue) : Completion unit :=
  match as_string displayFormat with
  | None => Throw "Display format is required and must be a string"
  | Some s =>
      if negb (truthy displayFormat)
      then Throw "Display format is required and must be a string"
      else if negb (array_includes getSupportedFormats s)
      then Throw (template ["Unsupported display format: "; s;
                            ". Supported formats: ";
                            join ", " getSupportedFormats])
      else Normal tt
  end.

(** The class of the [invalidChars] expression: the two angle brackets, the
    colon, the double quote, the bar, the question mark and the star. *)
Definition is_invalid_filename_char (c : ascii) : bool :=
  Ascii.eqb c "<" || Ascii.eqb c ">" || Ascii.eqb c ":"
  || Ascii.eqb c (ascii_of_nat 34) || Ascii.eqb c "|" || Ascii.eqb c "?"
  || Ascii.eqb c "*".

(** [validateFilename(filename)]. *)
Definition validateFilename (filename : JsValue) : Completion unit :=
  match as_string filename with
  | None => Throw "Filename is required and must be a string"
  | Some s =>
      if negb (truthy filename)
      then Throw "Filename is required and must be a string"
      else if (String.length (trim s) =? 0)%nat
      then Throw "Filename cannot be empty"
      else if any_char is_invalid_filename_char s
      then Throw "Filename contains invalid characters"
      else if includes s ".." || starts_with "/" s
      then Throw "Filename cannot contain path traversal or absolute paths"
      else if (255 <? String.length s)%nat
      then Throw "Filename is too long (max 255 characters)"
      else Normal tt
  end.

(** [validateNumericOption(optionName, value, min, max)]. *)
Definition validateNumericOption (optionName : string) (value : JsValue)
    (min max : Z) : Completion unit :=
  match as_number value with
  | None => Throw (template [optionName; " must be a valid number"])
  | Some n =>
      if isNaN n then Throw (template [optionName; " must be a valid number"])
      else if negb (isInteger n)
      then Throw (template [optionName; " must be an integer"])
      else if num_lt n min || num_gt n max
      then Throw (template [optionName; " must be between "; of_Z min;
                            " and "; of_Z max])
      else Normal tt
  end.

(** The class of the last pattern: tilde, caret, colon, question mark,
    star, the two square brackets and the backslash. *)
Definition is_invalid_branch_char (c : ascii) : bool :=
  Ascii.eqb c "~" || Ascii.eqb c "^" || Ascii.eqb c ":" || Ascii.eqb c "?"
  || Ascii.eqb c "*" || Ascii.eqb c "[" || Ascii.eqb c "]"
  || Ascii.eqb c (ascii_of_nat 92).

(** The five [invalidPatterns] of [validateBranchName], in order: a leading
    dot, a trailing dot, two dots in a row, a white space character, a
    character of the reserved class. *)
Definition invalidPatterns : list (string -> bool) :=
  [starts_with ".";
   ends_with ".";
   fun s => includes s "..";
   any_char is_white_space;
   any_char is_invalid_branch_char].

(** [validateBranchName(branchName)]. *)
Definition validateBranchName (branchName : JsValue) : Completion unit :=
  match as_string branchName with
  | None => Throw "Branch name must be a string"
  | Some s =>
      if negb (truthy branchName)
      then Throw "Branch name must be a string"
      else if (String.length (trim s) =? 0)%nat
      then Throw "Branch name cannot be empty"
      else if existsb (fun pattern => pattern s) invalidPatterns
      then Throw (template ["Invalid branch name: "; s])
      else if (250 <? String.length s)%nat
      then Throw "Branch name is too long (max 250 characters)"
      else Normal tt
  end.

(** [validateCustomizationOptions(config)]. The date format, custom CSS,
    section title and empty-state message of a [Config] are strings, so
    their [typeof] checks pass; the branch is validated when it is truthy. *)
Definition validateCustomizationOptions (config : Config) : Completion unit :=
  (do _u1 <- validateNumericOption "cardWidth" (num (cardWidth config)) 100 1200;
   do _u2 <- validateNumericOption "imageWidth" (num (imageWidth config)) 50 500;
   do _u3 <- validateNumericOption "imageHeight" (num (imageHeight config)) 50 500;
   do _u4 <- validateNumericOption "descriptionLength"
               (num (descriptionLength config)) 50 1000;
   if str_truthy (targetBranch config)
   then validateBranchName (JsStr (targetBranch config))
   else Normal tt)%completion.

(** [validateInputs(config)]: the validators in order, the first error
    wins. *)
Definition validateInputs (config : Config) : Completion unit :=
  (do _u1 <- validatePublicationName (JsStr (publicationName config));
   do _u2 <- validatePostCount (num (postCount config));
   do _u3 <- validateDisplayFormat (JsStr (displayFormat config));
   do _u4 <- validateFilename (JsStr (filename config));
   validateCustomizationOptions config)%completion.

End ValidationHelper.

(* ===================================================================== *)
(** ** DateHelper *)
(* ===================================================================== *)

Module DateHelper.

Section WithMoment.

(** The moment library is an external dependency; it is taken as a
    parameter, and every call into it may throw. *)
Variable Moment : Type.
(** [moment(date)] *)
Variable moment : JsValue -> Completion Moment.
(** [moment()] *)
Variable moment_now : Completion Moment.
(** [m.isValid()] *)
Variable isValid : Moment -> Completion bool.
(** [m.format(fmt)] *)
Variable moment_format : Moment -> string -> Completion string.
(** [a.diff(b, unit)] *)
Variable diff : Moment -> Moment -> string -> Completion Z.

Local Open Scope completion_scope.

Definition ago (n : Z) (singular plural : string) : string :=
  if n =? 1 then template ["1 "; singular; " ago"]
  else template [of_Z n; " "; plural; " ago"].

Definition getRelativeTime (momentDate : Moment) : Completion string :=
  do now <- moment_now;
  do diffInDays <- diff now momentDate "days";
  do diffInHours <- diff now momentDate "hours";
  do diffInMinutes <- diff now momentDate "minutes";
  do diffInWeeks <- diff now momentDate "weeks";
  do diffInMonths <- diff now momentDate "months";
  do diffInYears <- diff now momentDate "years";
  Normal
    (if diffInMinutes <? 60 then
       if diffInMinutes <=? 1 then "Just now"
       else template [of_Z diffInMinutes; " minutes ago"]
     else if diffInHours <? 24 then ago diffInHours "hour" "hours"
     else if diffInDays <? 7 then ago diffInDays "day" "days"
     else if diffInWeeks <? 4 then ago diffInWeeks "week" "weeks"
     else if diffInMonths <? 12 then ago diffInMonths "month" "months"
     else ago diffInYears "year" "years").

(** [formatDate(date, format = 'MMM DD, YYYY')]; an omitted [format] is
    [None]. The [console.error] of the handler is left out. *)
Definition formatDate (date : JsValue) (format : option string)
  : Completion string :=
  let format := default "MMM DD, YYYY" format in
  if negb (truthy date) then Normal "Unknown date"
  else
    try_catch
      (do momentDate <- moment date;
       do valid <- isValid momentDate;
       if negb valid then Normal "Invalid date"
       else if String.eqb format "relative" then getRelativeTime momentDate
       else moment_format momentDate format)
      (fun _ => Normal "Error formatting date").

(** [parseDate(date)]: the moment, or [null] ([None]). *)
Definition parseDate (date : JsValue) : Completion (option Moment) :=
  if negb (truthy date) then Normal None
  else
    try_catch
      (do momentDate <- moment date;
       do valid <- isValid momentDate;
       Normal (if valid then Some momentDate else None))
      (fun _ => Normal None).

(** [isValidDate(date)]: [parseDate(date) !== null]. *)
Definition isValidDate (date : JsValue) : Completion bool :=
  do parsed <- parseDate date;
  Normal (match parsed with Some _ => true | None => false end).

(** [toUrlSlug(date)]. *)
Definition toUrlSlug (date : JsValue) : Completion string :=
  do momentDate <- parseDate date;
  match momentDate with
  | Some m => moment_format m "YYYY-MM-DD"
  | None => Normal ""
  end.

End WithMoment.

End DateHelper.

(* ===================================================================== *)
(** ** HashnodeService.transformPost *)
(* ===================================================================== *)

Module HashnodeService.

(** A post node of the API response; a missing or [null] property is
    [None]. *)
Record RawAuthor : Type := mkRawAuthor {
  raw_name : option string;
  raw_username : option string
}.

Record RawPost : Type := mkRawPost {
  raw_id : string;
  raw_title : option string;
  raw_brief : option string;
  raw_slug : string;
  raw_url : string;
  raw_publishedAt : JsValue;
  raw_coverImage : option (option string);
  raw_author : option RawAuthor;
  raw_tags : option (list Tag);
  raw_readTimeInMinutes : option Z
}.

(** [x || d] for an optional string [x]. *)
Definition opt_or (x : option string) (d : string) : string :=
  match x with
  | Some s => str_or s d
  | None => d
  end.

Section WithMoment.

Variable Moment : Type.
Variable moment : JsValue -> Completion Moment.
Variable moment_now : Completion Moment.
Variable isValid : Moment -> Completion bool.
Variable moment_format : Moment -> string -> Completion string.
Variable diff : Moment -> Moment -> string -> Completion Z.

Local Open Scope completion_scope.

(** [transformPost(post)]; [formatDate] is called with the date alone, so
    with its default format. *)
Definition transformPost (post : RawPost) : Completion Post :=
  do formatted <-
     DateHelper.formatDate Moment moment moment_now isValid moment_format diff
       (raw_publishedAt post) None;
  Normal
    (mkPost (raw_id post)
            (opt_or (raw_title post) "Untitled")
            (opt_or (raw_brief post) "")
            (raw_slug post)
            (raw_url post)
            (raw_publishedAt post)
            formatted
            (opt_or (mjoin (raw_coverImage post)) "")
            (mkAuthor
               (opt_or (raw_author post ≫= raw_name) "Unknown Author")
               (opt_or (raw_author post ≫= raw_username) ""))
            (default [] (raw_tags post))
            (default 0 (raw_readTimeInMinutes post))).

End WithMoment.

End HashnodeService.

(* ===================================================================== *)
(** ** BlogController *)
(* ===================================================================== *)

Module BlogController.

Definition sectionStart : string := "<!-- BLOG-POSTS:START -->".
Definition sectionEnd : string := "<!-- BLOG-POSTS:END -->".

(** The optional heading of line 101: present when [config.sectionTitle]
    is truthy, that is a non-empty string. *)
Definition heading (config : Config) : string :=
  if str_truthy (sectionTitle config)
  then template ["## "; sectionTitle config; nl; nl]
  else "".

Definition fullSection (config : Config) (newContent : string) : string :=
  template [sectionStart; nl; heading config; newContent; nl; sectionEnd].

(** [updateFileContent(currentContent, newContent)], with [this.config]
    passed explicitly. *)
Definition updateFileContent (config : Config)
    (currentContent newContent : string) : string :=
  if includes currentContent sectionStart && includes currentContent sectionEnd
  then
    let beforeSection :=
      substring currentContent 0 (indexOf currentContent sectionStart) in
    let afterSection :=
      substring_from currentContent
        (indexOf currentContent sectionEnd + Z.of_nat (String.length sectionEnd)) in
    beforeSection +:+ fullSection config newContent +:+ afterSection
  else
    currentContent +:+ nl +:+ nl +:+ fullSection config newContent +:+ nl.

(** The condition the specification gives for the replacement branch:
    a start marker occurs, and an end marker occurs after the first start
    marker. Stated from the specification's words, for comparison with the
    condition of [updateFileContent]. *)
Definition spec_replace_condition (currentContent : string) : bool :=
  match find_first sectionStart currentContent with
  | Some i =>
      includes (str_drop (i + String.length sectionStart) currentContent) sectionEnd
  | None => false
  end.

(** The result of append mode. *)
Definition appended (config : Config) (currentContent newContent : string)
  : string :=
  currentContent +:+ nl +:+ nl +:+ fullSection config newContent +:+ nl.

(** What [fullSection] puts between the two markers. *)
Definition sectionBody (config : Config) (newContent : string) : string :=
  nl +:+ heading config +:+ newContent +:+ nl.

(** Documents on which the first start marker and the first end marker
    bound one section: [X], start marker, [old], end marker, [Y], with no
    marker in [X] and no end marker in [old]. *)
Definition delimited (doc X old Y : string) : Prop :=
  doc = X +:+ sectionStart +:+ old +:+ sectionEnd +:+ Y /\
  ~ occurs sectionStart X /\ ~ occurs sectionEnd X /\ ~ occurs sectionEnd old.

Definition marker_free (doc : string) : Prop :=
  ~ occurs sectionStart doc /\ ~ occurs sectionEnd doc.

Definition well_delimited (doc : string) : Prop :=
  marker_free doc \/ exists X old Y, delimited doc X old Y.

(** The calls [execute] makes to the outside, in order. *)
Inductive Effect : Type :=
| FetchBlogPosts (publicationName : string) (postCount : Z)
| GetFileContent (filePath : string)
| UpdateFile (filePath content message : string)
| SetOutput (name : string) (value : JsValue).

(** The collaborators of [execute]: each call returns or throws. *)
Record Services : Type := mkServices {
  fetchBlogPosts : string -> Z -> Completion (list Post);
  getFileContent : string -> Completion string;
  updateFile : string -> string -> string -> Completion string
}.

(** [execute()], with [this.config] and the services passed explicitly:
    the calls made and the completion. The fetched posts are fresh objects,
    the store [posts] addressed by [0 .. length - 1]. The handler of the
    outer [try] logs and rethrows; the logger calls are left out. *)
Definition execute (services : Services) (config : Config)
  : list Effect * Completion unit :=
  match ValidationHelper.validateInputs config with
  | Throw e => ([], Throw e)
  | Normal _ =>
    let t1 := [FetchBlogPosts (publicationName config) (postCount config)] in
    match fetchBlogPosts services (publicationName config) (postCount config) with
    | Throw e => (t1, Throw e)
    | Normal posts =>
      let posts_count := ValidationHelper.num (Z.of_nat (length posts)) in
      if (length posts =? 0)%nat then
        (t1 ++ [SetOutput "posts_count" (ValidationHelper.num 0);
                SetOutput "file_updated" (JsBool false)], Normal tt)
      else
        match TemplateService.generateContent (seq 0 (length posts)) config posts with
        | None => (t1, Throw "TypeError")
        | Some (content, _) =>
          let t2 := t1 ++ [GetFileContent (filename config)] in
          match getFileContent services (filename config) with
          | Throw e => (t2, Throw e)
          | Normal currentContent =>
            let updatedContent :=
              updateFileContent config currentContent content in
            if String.eqb currentContent updatedContent then
              (t2 ++ [SetOutput "posts_count" posts_count;
                      SetOutput "file_updated" (JsBool false)], Normal tt)
            else
              let message :=
                template ["Update blog posts (";
                          of_Z (Z.of_nat (length posts)); " posts)"] in
              let t3 := t2 ++ [UpdateFile (filename config) updatedContent message] in
              match updateFile services (filename config) updatedContent message with
              | Throw e => (t3, Throw e)
              | Normal commitSha =>
                (t3 ++ [SetOutput "posts_count" posts_count;
                        SetOutput "file_updated" (JsBool true);
                        SetOutput "commit_sha" (JsStr commitSha)], Normal tt)
              end
          end
        end
    end
  end.

End BlogController.

(* ===================================================================== *)
(** * Facts about the string primitives *)
(* ===================================================================== *)

Section StringFacts.

Implicit Types (s p a b c d : string) (x : ascii) (n k i : nat).

Lemma str_app_cons x a b : String x a +:+ b = String x (a +:+ b).
Proof. reflexivity. Qed.

Lemma str_app_nil_l a : "" +:+ a = a.
Proof. reflexivity. Qed.

Lemma str_app_nil_r a : a +:+ "" = a.
Proof. induction a as [|x a IH]; [reflexivity|]. by rewrite str_app_cons, IH. Qed.

Lemma str_app_assoc a b c : (a +:+ b) +:+ c = a +:+ b +:+ c.
Proof.
  induction a as [|x a IH]; [reflexivity|].
  by rewrite !str_app_cons, IH.
Qed.

Lemma str_length_app a b :
  String.length (a +:+ b) = (String.length a + String.length b)%nat.
Proof.
  induction a as [|x a IH]; [reflexivity|].
  rewrite str_app_cons. simpl. by rewrite IH.
Qed.

(** Two ways of cutting the same string: one cut point is inside the other
    half. *)
Lemma str_app_eq_app a b c d :
  a +:+ b = c +:+ d ->
  (exists e, c = a +:+ e /\ b = e +:+ d) \/ (exists e, a = c +:+ e /\ d = e +:+ b).
Proof.
  revert c. induction a as [|x a IH]; intros c H.
  - left. exists c. by rewrite !str_app_nil_l in *.
  - destruct c as [|y c].
    + right. exists (String x a). by rewrite str_app_nil_l in *.
    + rewrite !str_app_cons in H. injection H as -> H.
      destruct (IH _ H) as [[e [-> ->]]|[e [-> ->]]]; [left|right]; by exists e.
Qed.

Lemma str_take_app a b : str_take (String.length a) (a +:+ b) = a.
Proof.
  induction a as [|x a IH]; simpl.
  - by destruct b.
  - by rewrite IH.
Qed.

Lemma str_drop_app_plus a b n :
  str_drop (String.length a + n) (a +:+ b) = str_drop n b.
Proof. induction a as [|x a IH]; [reflexivity|]. simpl. apply IH. Qed.

Lemma str_drop_app a b : str_drop (String.length a) (a +:+ b) = b.
Proof.
  rewrite <- (Nat.add_0_r (String.length a)), str_drop_app_plus.
  by destruct b.
Qed.

Lemma str_take_drop n s : str_take n s +:+ str_drop n s = s.
Proof.
  revert s. induction n as [|n IH]; intros [|x s]; simpl; try reflexivity.
  by rewrite str_app_cons, IH.
Qed.

Lemma str_take_length n s :
  String.length (str_take n s) = Nat.min n (String.length s).
Proof.
  revert s. induction n as [|n IH]; intros [|x s]; simpl; try reflexivity.
  by rewrite IH.
Qed.

Lemma str_drop_length n s :
  String.length (str_drop n s) = (String.length s - n)%nat.
Proof.
  revert s. induction n as [|n IH]; intros [|x s]; simpl; try reflexivity.
  apply IH.
Qed.

Lemma str_take_ge n s : (String.length s <= n)%nat -> str_take n s = s.
Proof.
  revert s. induction n as [|n IH]; intros [|x s] H; simpl in *;
    try reflexivity; try lia.
  rewrite IH; [done|lia].
Qed.

Lemma str_take_min n s : str_take (Nat.min n (String.length s)) s = str_take n s.
Proof.
  destruct (Nat.le_ge_cases n (String.length s)) as [H|H].
  - by rewrite Nat.min_l.
  - rewrite Nat.min_r by done. rewrite !str_take_ge; [done|lia|lia].
Qed.

Lemma str_drop_ge n s : (String.length s <= n)%nat -> str_drop n s = "".
Proof.
  revert s. induction n as [|n IH]; intros [|x s] H; simpl in *;
    try reflexivity; try lia.
  apply IH. lia.
Qed.

Lemma str_drop_min n s : str_drop (Nat.min n (String.length s)) s = str_drop n s.
Proof.
  destruct (Nat.le_ge_cases n (String.length s)) as [H|H].
  - by rewrite Nat.min_l.
  - rewrite Nat.min_r by done. rewrite !str_drop_ge; [done|lia|lia].
Qed.

(** [substring] and [substring_from] at natural indices. *)
Lemma substring_0 s n : substring s 0 (Z.of_nat n) = str_take n s.
Proof.
  unfold substring, clamp. rewrite Nat2Z.id. simpl Z.to_nat.
  rewrite Nat.min_0_l, Nat.max_0_l, Nat.sub_0_r. simpl str_drop.
  apply str_take_min.
Qed.

Lemma substring_from_nat s n : substring_from s (Z.of_nat n) = str_drop n s.
Proof.
  unfold substring_from, substring, clamp. rewrite !Nat2Z.id.
  rewrite Nat.min_id.
  rewrite (Nat.min_l (Nat.min n _) (String.length s)) by lia.
  rewrite (Nat.max_r (Nat.min n _) (String.length s)) by lia.
  rewrite str_take_ge by (rewrite str_drop_length; lia).
  apply str_drop_min.
Qed.

Lemma starts_with_spec p s : starts_with p s = true <-> exists r, s = p +:+ r.
Proof.
  revert s. induction p as [|x p IH]; intros s.
  - split; [intros _; by exists s|by destruct s].
  - destruct s as [|y s]; simpl.
    + split; [done|]. intros [r Hr]. by rewrite str_app_cons in Hr.
    + destruct (Ascii.eqb_spec x y) as [->|Hne].
      * rewrite IH. split; intros [r Hr]; exists r.
        -- by rewrite str_app_cons, Hr.
        -- rewrite str_app_cons in Hr. by injection Hr.
      * split; [done|]. intros [r Hr]. rewrite str_app_cons in Hr.
        injection Hr as ? ?. congruence.
Qed.

Lemma starts_with_app p r : starts_with p (p +:+ r) = true.
Proof. apply starts_with_spec. by exists r. Qed.

Lemma mem_app_cons x a b : mem x (a +:+ String x b) = true.
Proof.
  induction a as [|y a IH].
  - rewrite str_app_nil_l. simpl. by rewrite Ascii.eqb_refl.
  - rewrite str_app_cons. simpl. rewrite IH. by destruct (Ascii.eqb x y).
Qed.

(** *** Soundness, minimality and completeness of the search *)

Lemma find_first_sound p s i :
  find_first p s = Some i ->
  (exists b, s = str_take i s +:+ p +:+ b) /\ (i <= String.length s)%nat /\
  (forall k, (k < i)%nat -> starts_with p (str_drop k s) = false).
Proof.
  revert i. induction s as [|x s IH]; intros i H.
  - simpl in H. destruct (starts_with p "") eqn:E; [|done].
    injection H as <-. apply starts_with_spec in E as [r Hr].
    split; [by exists r|]. split; [done|]. intros; lia.
  - cbn [find_first] in H. destruct (starts_with p (String x s)) eqn:E.
    + injection H as <-. apply starts_with_spec in E as [r Hr].
      split; [by exists r|]. split; [simpl; lia|]. intros; lia.
    + destruct (find_first p s) as [j|] eqn:Ej; [|done].
      injection H as <-. destruct (IH j eq_refl) as [[b Hb] [Hle Hmin]].
      split; [|split].
      * exists b. simpl. rewrite str_app_cons. by rewrite <- Hb.
      * simpl. lia.
      * intros [|k] Hk; [done|]. simpl. apply Hmin. lia.
Qed.

Lemma find_first_complete p s : occurs p s -> is_Some (find_first p s).
Proof.
  intros [a [b ->]]. induction a as [|x a IH].
  - rewrite str_app_nil_l.
    destruct (p +:+ b) eqn:E; cbn [find_first]; rewrite <- ?E;
      by rewrite starts_with_app.
  - rewrite str_app_cons. cbn [find_first].
    destruct (starts_with p _); [done|].
    destruct IH as [j ->]. done.
Qed.

Lemma find_first_None p s : find_first p s = None <-> ~ occurs p s.
Proof.
  split.
  - intros H Hocc. apply find_first_complete in Hocc as [j Hj]. congruence.
  - intros H. destruct (find_first p s) as [i|] eqn:E; [|done].
    exfalso. apply H. apply find_first_sound in E as [[b Hb] _].
    by exists (str_take i s), b.
Qed.

Lemma find_first_least p s i a b :
  find_first p s = Some i -> s = a +:+ p +:+ b -> (i <= String.length a)%nat.
Proof.
  intros H ->. apply find_first_sound in H as (_ & _ & Hmin).
  destruct (Nat.le_gt_cases i (String.length a)) as [|Hlt]; [done|].
  specialize (Hmin _ Hlt). by rewrite str_drop_app, starts_with_app in Hmin.
Qed.

Lemma includes_true s p : includes s p = true <-> occurs p s.
Proof.
  unfold includes. split.
  - destruct (find_first p s) as [i|] eqn:E; [|done]. intros _.
    apply find_first_sound in E as [[b Hb] _]. by exists (str_take i s), b.
  - intros [j ->]%find_first_complete. done.
Qed.

Lemma includes_false s p : includes s p = false <-> ~ occurs p s.
Proof.
  rewrite <- includes_true. by destruct (includes s p).
Qed.

End StringFacts.

(** ** Occurrences across a concatenation *)

Section Occurrences.

Implicit Types (s p a b X T : string) (c x : ascii) (k : nat).

Lemma occurs_app_l p a b : occurs p a -> occurs p (a +:+ b).
Proof.
  intros [u [v ->]]. exists u, (v +:+ b). by rewrite !str_app_assoc.
Qed.

Lemma occurs_app_r p a b : occurs p b -> occurs p (a +:+ b).
Proof.
  intros [u [v ->]]. exists (a +:+ u), v. by rewrite !str_app_assoc.
Qed.

Lemma occurs_cons_mismatch p x s :
  starts_with p (String x s) = false -> occurs p (String x s) -> occurs p s.
Proof.
  intros Hsw [[|y u] [v Hs]].
  - rewrite str_app_nil_l in Hs. rewrite Hs, starts_with_app in Hsw. done.
  - rewrite str_app_cons in Hs. injection Hs as _ ->. by exists u, v.
Qed.

(** A code unit that is not part of [p] separates the occurrences of [p]. *)
Lemma occurs_split_char c p a b :
  mem c p = false -> occurs p (a +:+ String c b) -> occurs p a \/ occurs p b.
Proof.
  intros Hc [u [v Hs]].
  destruct (str_app_eq_app _ _ _ _ Hs) as [[e [-> He]]|[e [-> He]]].
  - destruct e as [|y e].
    + rewrite str_app_nil_l in He. destruct p as [|z p].
      * left. exists a, "". by rewrite str_app_nil_l, str_app_nil_r.
      * rewrite str_app_cons in He. injection He as -> _.
        simpl in Hc. by rewrite Ascii.eqb_refl in Hc.
    + rewrite str_app_cons in He. injection He as _ ->. right. by exists e, v.
  - destruct (str_app_eq_app _ _ _ _ He) as [[e2 [-> He2]]|[e2 [-> He2]]].
    + left. by exists u, e2.
    + destruct e2 as [|y e2].
      * left. exists u, "". by rewrite !str_app_nil_r.
      * rewrite str_app_cons in He2. injection He2 as <- _.
        by rewrite mem_app_cons in Hc.
Qed.

Lemma str_drop_app_le k a b :
  (k <= String.length a)%nat -> str_drop k (a +:+ b) = str_drop k a +:+ b.
Proof.
  revert a. induction k as [|k IH]; intros [|x a] H;
    rewrite ?str_app_cons, ?str_app_nil_l; simpl in *; try reflexivity; try lia.
  apply IH. lia.
Qed.

(** When the first code unit [c] of [p] does not occur again in [p], an
    occurrence of [p] cannot begin inside [X] and run into a text that
    begins with [c]: it would have to lie inside [X]. *)
Lemma no_early_occurrence c p' p X T k :
  p = String c p' -> mem c p' = false ->
  ~ occurs p X ->
  T = "" \/ (exists T', T = String c T') ->
  (k < String.length X)%nat ->
  starts_with p (str_drop k (X +:+ T)) = false.
Proof.
  intros -> Hc Hno HT Hk.
  destruct (starts_with _ _) eqn:E; [exfalso|done].
  apply starts_with_spec in E as [r Hr].
  rewrite str_drop_app_le in Hr by lia.
  assert (HX : X = str_take k X +:+ str_drop k X) by (by rewrite str_take_drop).
  assert (Hlen : String.length (str_drop k X) <> 0%nat)
    by (rewrite str_drop_length; lia).
  destruct (str_drop k X) as [|y X2] eqn:EX2; [done|].
  destruct (str_app_eq_app _ _ _ _ Hr) as [[e [He1 He2]]|[e [He1 He2]]].
  - rewrite str_app_cons in He1. injection He1 as <- ->.
    destruct e as [|z e].
    + apply Hno. rewrite HX. exists (str_take k X), "".
      by rewrite !str_app_nil_r.
    + destruct HT as [->|[T' ->]]; [done|].
      rewrite str_app_cons in He2. injection He2 as <- _.
      by rewrite mem_app_cons in Hc.
  - apply Hno. rewrite HX, He1. by exists (str_take k X), e.
Qed.

(** Skipping a prefix in which no occurrence begins. *)
Lemma find_first_skip p X T :
  (forall k, (k < String.length X)%nat ->
             starts_with p (str_drop k (X +:+ T)) = false) ->
  find_first p (X +:+ T) =
  option_map (Nat.add (String.length X)) (find_first p T).
Proof.
  induction X as [|x X IH]; intros H.
  - rewrite str_app_nil_l. by destruct (find_first p T).
  - rewrite str_app_cons. cbn [find_first].
    assert (H0 : starts_with p (String x (X +:+ T)) = false)
      by (apply (H 0%nat); simpl; lia).
    rewrite H0, IH.
    + by destruct (find_first p T).
    + intros k Hk. apply (H (S k)). simpl. lia.
Qed.

Lemma find_first_here p r : find_first p (p +:+ r) = Some 0%nat.
Proof.
  destruct (p +:+ r) eqn:E; cbn [find_first]; rewrite <- ?E;
    by rewrite starts_with_app.
Qed.

(** The position of [p] after a prefix that does not contain it. *)
Lemma find_first_after c p' p X r :
  p = String c p' -> mem c p' = false ->
  ~ occurs p X ->
  find_first p (X +:+ p +:+ r) = Some (String.length X).
Proof.
  intros Hp Hc Hno. rewrite find_first_skip, find_first_here.
  - simpl. by rewrite Nat.add_0_r.
  - intros k Hk. eapply no_early_occurrence; eauto.
    right. subst p. by eexists.
Qed.

End Occurrences.

(* ===================================================================== *)
(** * The merge operation: [BlogController.updateFileContent] *)
(* ===================================================================== *)

Module MergeFacts.
Import BlogController.

Lemma find_first_split p s i :
  find_first p s = Some i ->
  exists a b, s = a +:+ p +:+ b /\ String.length a = i /\
              str_take i s = a /\ str_drop (i + String.length p) s = b.
Proof.
  intros H. apply find_first_sound in H as [[b Hb] [Hle _]].
  exists (str_take i s), b.
  assert (Hlen : String.length (str_take i s) = i)
    by (rewrite str_take_length; lia).
  repeat split; try done.
  rewrite Hb at 1. rewrite <- Hlen at 1.
  by rewrite str_drop_app_plus, str_drop_app.
Qed.

Section WithConfig.

Variable config : Config.

Lemma fullSection_eq block :
  fullSection config block =
  sectionStart +:+ sectionBody config block +:+ sectionEnd.
Proof.
  unfold fullSection, sectionBody, template. simpl String.concat.
  by rewrite !str_app_nil_l, !str_app_assoc.
Qed.

(** The two branches, by the outcome of the two searches. *)
Lemma update_replace doc block i j :
  find_first sectionStart doc = Some i ->
  find_first sectionEnd doc = Some j ->
  updateFileContent config doc block =
  str_take i doc +:+ fullSection config block
    +:+ str_drop (j + String.length sectionEnd) doc.
Proof.
  intros Hi Hj. unfold updateFileContent, includes, indexOf.
  rewrite Hi, Hj. simpl andb. cbv iota.
  by rewrite <- Nat2Z.inj_add, substring_0, substring_from_nat.
Qed.

Lemma update_append doc block :
  find_first sectionStart doc = None \/ find_first sectionEnd doc = None ->
  updateFileContent config doc block = appended config doc block.
Proof.
  intros H. unfold updateFileContent, includes.
  destruct H as [-> | ->]; [done|].
  by destruct (find_first sectionStart doc).
Qed.

Lemma start_head : sectionStart = String "<" "!-- BLOG-POSTS:START -->".
Proof. reflexivity. Qed.

Lemma end_head : sectionEnd = String "<" "!-- BLOG-POSTS:END -->".
Proof. reflexivity. Qed.

(** No end marker begins inside a start marker. *)
Lemma end_not_in_start T k :
  (k < String.length sectionStart)%nat ->
  starts_with sectionEnd (str_drop k (sectionStart +:+ T)) = false.
Proof.
  change (String.length sectionStart) with 25%nat. intros Hk.
  do 25 (destruct k as [|k]; [reflexivity|]). lia.
Qed.

Lemma not_occurs_empty p : p <> "" -> ~ occurs p "".
Proof.
  intros Hp [[|x a] [b H]].
  - destruct p; [done|]. by rewrite str_app_nil_l, str_app_cons in H.
  - by rewrite str_app_cons in H.
Qed.

(** The replacement branch on a delimited document. *)
Lemma update_delimited doc X old Y block :
  delimited doc X old Y ->
  updateFileContent config doc block = X +:+ fullSection config block +:+ Y.
Proof.
  intros (-> & HSX & HEX & HEold).
  assert (HS : find_first sectionStart
                 (X +:+ sectionStart +:+ old +:+ sectionEnd +:+ Y)
               = Some (String.length X))
    by (by eapply find_first_after; [apply start_head| |]).
  assert (HE : find_first sectionEnd
                 (X +:+ sectionStart +:+ old +:+ sectionEnd +:+ Y)
               = Some (String.length X + (String.length sectionStart
                                          + String.length old))%nat).
  { rewrite find_first_skip.
    2:{ intros k Hk.
        eapply no_early_occurrence; [apply end_head|done|done| |done].
        right. by eexists. }
    rewrite find_first_skip by (intros; by apply end_not_in_start).
    erewrite find_first_after; [done|apply end_head|done|done]. }
  rewrite (update_replace _ _ _ _ HS HE).
  rewrite str_take_app. do 2 f_equal.
  rewrite <- !Nat.add_assoc.
  rewrite !str_drop_app_plus.
  rewrite <- (Nat.add_0_r (String.length sectionEnd)).
  rewrite str_drop_app_plus. by destruct Y.
Qed.

(** Nothing between the markers of a new section is an end marker, when
    neither the block nor the title contains one. *)
Lemma sectionBody_no_end block :
  ~ occurs sectionEnd block ->
  ~ occurs sectionEnd (sectionTitle config) ->
  ~ occurs sectionEnd (sectionBody config block).
Proof.
  intros Hb Ht Hocc.
  assert (Htail : ~ occurs sectionEnd (block +:+ nl)).
  { intros H. apply occurs_split_char in H as [H|H]; [done| |reflexivity].
    by apply not_occurs_empty in H. }
  unfold sectionBody in Hocc.
  apply occurs_cons_mismatch in Hocc; [|reflexivity].
  unfold heading in Hocc. destruct (str_truthy (sectionTitle config)).
  - unfold template in Hocc. simpl String.concat in Hocc.
    rewrite !str_app_nil_l, !str_app_assoc in Hocc.
    do 3 (apply occurs_cons_mismatch in Hocc; [|reflexivity]).
    apply occurs_split_char in Hocc as [H|H]; [done| |reflexivity].
    apply occurs_cons_mismatch in H; [|reflexivity]. done.
  - by rewrite str_app_nil_l in Hocc.
Qed.

(** Two newlines after a text add no marker to it. *)
Lemma newlines_no_marker p doc :
  p <> "" -> mem (ascii_of_nat 10) p = false ->
  ~ occurs p doc -> ~ occurs p (doc +:+ nl +:+ nl).
Proof.
  intros Hp Hm Hdoc H.
  apply occurs_split_char in H as [H|H]; [done| |done].
  apply (occurs_split_char _ _ "") in H as [H|H]; [| |done];
    by apply not_occurs_empty in H.
Qed.

End WithConfig.

End MergeFacts.

Module MergeClaims.
Import BlogController MergeFacts.

(** C3, as stated, fails when the old section itself contains an end
    marker: the text after the FIRST end marker is kept, so the rest of the
    old section and the second end marker survive the merge. *)
Lemma marker_preservation_fails_on_end_marker_in_old :
  let X := "" in
  let old := sectionEnd in
  let Y := "" in
  (~ occurs sectionStart X /\ ~ occurs sectionEnd X) /\
  (~ occurs sectionStart Y /\ ~ occurs sectionEnd Y) /\
  updateFileContent exampleConfig
    (X +:+ sectionStart +:+ old +:+ sectionEnd +:+ Y) "new"
  <> X +:+ fullSection exampleConfig "new" +:+ Y.
Proof.
  repeat split; try (by apply not_occurs_empty).
  apply String.eqb_neq. reflexivity.
Qed.

(** C3 (amended): for every document X + start marker + old + end marker
    + Y in which X and Y contain neither marker and old contains no end
    marker, the merge yields exactly X + new section + Y, where the new
    section is the start marker, a newline, the heading "## title" and a
    blank line when the title is non-empty, the block, a newline and the
    end marker. *)
Theorem marker_preservation config X old Y block :
  ~ occurs sectionStart X -> ~ occurs sectionEnd X ->
  ~ occurs sectionStart Y -> ~ occurs sectionEnd Y ->
  ~ occurs sectionEnd old ->
  updateFileContent config
    (X +:+ sectionStart +:+ old +:+ sectionEnd +:+ Y) block
  = X +:+ fullSection config block +:+ Y
  /\ fullSection config block
     = sectionStart +:+ nl
       +:+ (if String.eqb (sectionTitle config) "" then ""
            else "## " +:+ sectionTitle config +:+ nl +:+ nl)
       +:+ block +:+ nl +:+ sectionEnd.
Proof.
  intros HSX HEX _ _ HEold. split.
  - by apply (update_delimited config _ X old Y).
  - unfold fullSection, heading, str_truthy, template.
    destruct (String.eqb (sectionTitle config) ""); simpl String.concat;
      by rewrite !str_app_nil_l, ?str_app_assoc.
Qed.

Lemma marker_preservation_witness :
  updateFileContent exampleConfig
    ("# Readme" +:+ sectionStart +:+ "old posts" +:+ sectionEnd +:+ "footer")
    "new posts"
  = "# Readme" +:+ fullSection exampleConfig "new posts" +:+ "footer".
Proof.
  apply (marker_preservation exampleConfig "# Readme" "old posts" "footer"
           "new posts");
    apply find_first_None; reflexivity.
Defined.

(** C2, as stated, fails: a document holding a start marker but no end
    marker keeps its stray marker on the first merge and loses everything
    before the new section on the second; and a block that contains the
    end marker makes the second merge cut the section short. *)
Lemma idempotence_fails :
  updateFileContent exampleConfig
    (updateFileContent exampleConfig sectionStart "new") "new"
  <> updateFileContent exampleConfig sectionStart "new"
  /\
  updateFileContent exampleConfig
    (updateFileContent exampleConfig "" sectionEnd) sectionEnd
  <> updateFileContent exampleConfig "" sectionEnd.
Proof. split; apply String.eqb_neq; reflexivity. Qed.

(** C2 (amended): merging is idempotent on every document that either
    contains neither marker or is X + start marker + old + end marker + Y
    with no marker in X and no end marker in old, for every block and
    section title that do not contain the end marker. *)
Theorem idempotence config doc block :
  well_delimited doc ->
  ~ occurs sectionEnd block ->
  ~ occurs sectionEnd (sectionTitle config) ->
  updateFileContent config (updateFileContent config doc block) block
  = updateFileContent config doc block.
Proof.
  intros Hdoc Hblock Htitle.
  pose proof (sectionBody_no_end config block Hblock Htitle) as Hbody.
  destruct Hdoc as [[HS HE] | (X & old & Y & Hd)].
  - rewrite (update_append config doc block)
      by (left; by apply find_first_None).
    assert (Hshape : appended config doc block
              = (doc +:+ nl +:+ nl) +:+ sectionStart
                +:+ sectionBody config block +:+ sectionEnd +:+ nl).
    { unfold appended. by rewrite fullSection_eq, !str_app_assoc. }
    rewrite (update_delimited config _ (doc +:+ nl +:+ nl)
               (sectionBody config block) nl).
    + unfold appended. by rewrite !str_app_assoc.
    + split; [done|]. repeat split; [| |done];
        by apply newlines_no_marker.
  - rewrite (update_delimited config doc X old Y) by done.
    destruct Hd as (_ & HSX & HEX & _).
    apply (update_delimited config _ X (sectionBody config block) Y).
    split; [|done].
    by rewrite fullSection_eq, !str_app_assoc.
Qed.

Lemma idempotence_witness :
  updateFileContent exampleConfig
    (updateFileContent exampleConfig "# Readme" "new posts") "new posts"
  = updateFileContent exampleConfig "# Readme" "new posts".
Proof.
  apply (idempotence exampleConfig "# Readme" "new posts").
  - left. split; apply find_first_None; reflexivity.
  - apply find_first_None; reflexivity.
  - apply find_first_None; reflexivity.
Defined.

End MergeClaims.

Module BranchClaims.
Import BlogController MergeFacts.

(** C4, as stated, fails: with an end marker followed by a start marker
    there is no end marker after the start marker, yet the code does not
    append; it takes the replacement branch. *)
Lemma append_mode_not_taken_for_reversed_markers :
  let doc := sectionEnd +:+ sectionStart in
  spec_replace_condition doc = false /\
  updateFileContent exampleConfig doc "new" <> appended exampleConfig doc "new".
Proof. split; [reflexivity|]. apply String.eqb_neq. reflexivity. Qed.

(** C4 (amended): the merge takes the replacement branch exactly when
    both marker literals occur somewhere in the existing text, in any
    order: the result is then the text before the first start marker, the
    new section, and the text after the first end marker. In every other
    case (either marker absent) it appends two newlines, the new section
    and a trailing newline to the existing text, which stays an unchanged
    prefix. *)
Theorem branch_condition config doc block :
  (occurs sectionStart doc /\ occurs sectionEnd doc /\
   exists before afterStart beforeEnd after,
     first_occurrence sectionStart doc before afterStart /\
     first_occurrence sectionEnd doc beforeEnd after /\
     updateFileContent config doc block
     = before +:+ fullSection config block +:+ after)
  \/
  (~ (occurs sectionStart doc /\ occurs sectionEnd doc) /\
   updateFileContent config doc block
   = doc +:+ nl +:+ nl +:+ fullSection config block +:+ nl).
Proof.
  destruct (find_first sectionStart doc) as [i|] eqn:HS;
    [destruct (find_first sectionEnd doc) as [j|] eqn:HE|].
  - left.
    destruct (find_first_split _ _ _ HS) as (a & b & Hab & Hla & Hta & _).
    destruct (find_first_split _ _ _ HE) as (c & d & Hcd & Hlc & _ & Hdd).
    split; [by exists a, b|]. split; [by exists c, d|].
    exists a, b, c, d. repeat split; try done.
    + intros a' b' H'. rewrite Hla. by eapply find_first_least.
    + intros a' b' H'. rewrite Hlc. by eapply find_first_least.
    + by rewrite (update_replace config doc block i j), Hta, Hdd.
  - right. split.
    + intros [_ H]. by apply find_first_None in HE.
    + by rewrite update_append by (by right).
  - right. split.
    + intros [H _]. by apply find_first_None in HS.
    + by rewrite update_append by (by left).
Qed.

(** C9: for every document, block and title, the output of the merge
    contains the complete new section (start marker, heading, block, end
    marker, in that order) as one contiguous substring, so that both
    markers occur in the output, and a further merge on the output takes
    the replacement branch. *)
Theorem output_contains_section config doc block :
  let out := updateFileContent config doc block in
  (exists a b, out = a +:+ fullSection config block +:+ b) /\
  fullSection config block
    = sectionStart +:+ (nl +:+ heading config +:+ block +:+ nl) +:+ sectionEnd /\
  includes out sectionStart = true /\
  includes out sectionEnd = true /\
  (forall config' block',
      updateFileContent config' out block'
      = substring out 0 (indexOf out sectionStart)
        +:+ fullSection config' block'
        +:+ substring_from out
              (indexOf out sectionEnd + Z.of_nat (String.length sectionEnd))).
Proof.
  intros out.
  assert (Hsub : exists a b, out = a +:+ fullSection config block +:+ b).
  { unfold out, updateFileContent.
    destruct (_ && _); [by eexists _, _|].
    exists (doc +:+ nl +:+ nl), nl. by rewrite !str_app_assoc. }
  assert (Hfull : fullSection config block
            = sectionStart +:+ (nl +:+ heading config +:+ block +:+ nl)
              +:+ sectionEnd) by apply fullSection_eq.
  assert (HS : includes out sectionStart = true).
  { apply includes_true. destruct Hsub as (a & b & ->). rewrite Hfull.
    exists a, ((nl +:+ heading config +:+ block +:+ nl) +:+ sectionEnd +:+ b).
    by rewrite !str_app_assoc. }
  assert (HE : includes out sectionEnd = true).
  { apply includes_true. destruct Hsub as (a & b & ->). rewrite Hfull.
    exists (a +:+ sectionStart +:+ nl +:+ heading config +:+ block +:+ nl), b.
    by rewrite !str_app_assoc. }
  repeat split; try done.
  intros config' block'. unfold updateFileContent at 1.
  by rewrite HS, HE.
Qed.

End BranchClaims.

(* ===================================================================== *)
(** * Post-count validation *)
(* ===================================================================== *)

Module ValidationClaims.
Import ValidationHelper.

Lemma num_lt_iff q k : num_lt (Finite q) k = true <-> (q < inject_Z k)%Q.
Proof.
  unfold num_lt. rewrite negb_true_iff, <- not_true_iff_false, Qle_bool_iff.
  split; [apply Qnot_le_lt|apply Qlt_not_le].
Qed.

Lemma num_gt_iff q k : num_gt (Finite q) k = true <-> (inject_Z k < q)%Q.
Proof.
  unfold num_gt. rewrite negb_true_iff, <- not_true_iff_false, Qle_bool_iff.
  split; [apply Qnot_le_lt|apply Qlt_not_le].
Qed.

Lemma isInteger_iff q :
  isInteger (Finite q) = true <-> exists n : Z, (q == inject_Z n)%Q.
Proof.
  unfold isInteger, Qeq. simpl. rewrite Z.eqb_eq. split.
  - intros H. exists (Qnum q / Zpos (Qden q)).
    rewrite Z.mul_1_r.
    rewrite (Z.div_mod (Qnum q) (Zpos (Qden q))) at 1 by lia.
    rewrite H. lia.
  - intros [n Hn]. rewrite Z.mul_1_r in Hn. rewrite Hn.
    apply Z.mod_mul. lia.
Qed.

(** C6: [validatePostCount] returns normally exactly on the integers from
    1 to 12. On every other value it throws, with a message naming the
    violated constraint: not a number (or NaN), below 1, above 12, or not
    an integer. It accepts 1 and 12 and rejects 0, 13 and 1.5. *)
Theorem validatePostCount_range (v : JsValue) :
  (validatePostCount v = Normal tt <->
     exists q n, v = JsNum (Finite q) /\ (q == inject_Z n)%Q /\ 1 <= n <= 12)
  /\ (as_number v = None \/ v = JsNum NaN ->
      validatePostCount v = Throw "Post count must be a valid number")
  /\ (v = JsNum NegInf \/ (exists q, v = JsNum (Finite q) /\ (q < 1)%Q) ->
      validatePostCount v = Throw "Post count must be at least 1")
  /\ (v = JsNum PosInf \/ (exists q, v = JsNum (Finite q) /\ (12 < q)%Q) ->
      validatePostCount v = Throw "Post count cannot exceed 12")
  /\ ((exists q, v = JsNum (Finite q) /\ (1 <= q)%Q /\ (q <= 12)%Q
                 /\ forall n : Z, ~ (q == inject_Z n)%Q) ->
      validatePostCount v = Throw "Post count must be an integer")
  /\ validatePostCount (num 1) = Normal tt
  /\ validatePostCount (num 12) = Normal tt
  /\ validatePostCount (num 0) = Throw "Post count must be at least 1"
  /\ validatePostCount (num 13) = Throw "Post count cannot exceed 12"
  /\ validatePostCount (JsNum (Finite (3 # 2)))
     = Throw "Post count must be an integer".
Proof.
  split; [|split; [|split; [|split; [|split]]]].
  - split.
    + destruct v as [| | |[| | |q]| |]; try discriminate.
      unfold validatePostCount. simpl as_number. cbv iota. simpl isNaN. cbv iota.
      destruct (num_lt (Finite q) 1) eqn:Hlt; [discriminate|].
      destruct (num_gt (Finite q) 12) eqn:Hgt; [discriminate|].
      destruct (isInteger (Finite q)) eqn:Hint; [|discriminate].
      intros _. apply isInteger_iff in Hint as [n Hn].
      exists q, n. split; [done|]. split; [done|].
      apply not_true_iff_false in Hlt, Hgt.
      rewrite num_lt_iff in Hlt. rewrite num_gt_iff in Hgt.
      apply Qnot_lt_le in Hlt, Hgt. rewrite Hn in Hlt, Hgt.
      by rewrite <- !Zle_Qle in Hlt, Hgt.
    + intros (q & n & -> & Hq & Hn).
      unfold validatePostCount. simpl as_number. cbv iota. simpl isNaN. cbv iota.
      assert (Hlt : num_lt (Finite q) 1 = false).
      { apply not_true_iff_false. rewrite num_lt_iff. apply Qle_not_lt.
        rewrite Hq, <- Zle_Qle. lia. }
      assert (Hgt : num_gt (Finite q) 12 = false).
      { apply not_true_iff_false. rewrite num_gt_iff. apply Qle_not_lt.
        rewrite Hq, <- Zle_Qle. lia. }
      assert (Hint : isInteger (Finite q) = true)
        by (apply isInteger_iff; by exists n).
      by rewrite Hlt, Hgt, Hint.
  - intros [H | ->]; [|reflexivity].
    unfold validatePostCount. by rewrite H.
  - intros [-> | (q & -> & Hq)]; [reflexivity|].
    unfold validatePostCount. simpl as_number. cbv iota. simpl isNaN. cbv iota.
    by rewrite (proj2 (num_lt_iff q 1) Hq).
  - intros [-> | (q & -> & Hq)]; [reflexivity|].
    unfold validatePostCount. simpl as_number. cbv iota. simpl isNaN. cbv iota.
    destruct (num_lt (Finite q) 1) eqn:Hlt.
    + apply num_lt_iff in Hlt. exfalso.
      apply (Qlt_irrefl q). eapply Qlt_trans; [apply Hlt|].
      eapply Qlt_trans; [|apply Hq]. reflexivity.
    + by rewrite (proj2 (num_gt_iff q 12) Hq).
  - intros (q & -> & H1 & H12 & Hni).
    unfold validatePostCount. simpl as_number. cbv iota. simpl isNaN. cbv iota.
    assert (Hlt : num_lt (Finite q) 1 = false).
    { apply not_true_iff_false. rewrite num_lt_iff. by apply Qle_not_lt. }
    assert (Hgt : num_gt (Finite q) 12 = false).
    { apply not_true_iff_false. rewrite num_gt_iff. by apply Qle_not_lt. }
    assert (Hint : isInteger (Finite q) = false).
    { apply not_true_iff_false. rewrite isInteger_iff. intros [n Hn].
      by apply (Hni n). }
    by rewrite Hlt, Hgt, Hint.
  - repeat split; reflexivity.
Qed.

Lemma validatePostCount_range_witness :
  validatePostCount (num 6) = Normal tt
  /\ validatePostCount (JsStr "6") = Throw "Post count must be a valid number"
  /\ validatePostCount (JsNum (Finite (1 # 2)))
     = Throw "Post count must be at least 1"
  /\ validatePostCount (JsNum (Finite (25 # 2)))
     = Throw "Post count cannot exceed 12"
  /\ validatePostCount (JsNum (Finite (5 # 2)))
     = Throw "Post count must be an integer".
Proof.
  split; [|split; [|split; [|split]]].
  - apply (proj1 (validatePostCount_range (num 6))).
    exists 6%Q, 6. split; [reflexivity|]. split; [reflexivity|lia].
  - apply (proj1 (proj2 (validatePostCount_range (JsStr "6")))).
    left. reflexivity.
  - apply (proj1 (proj2 (proj2 (validatePostCount_range
                                  (JsNum (Finite (1 # 2))))))).
    right. exists (1 # 2)%Q. split; reflexivity.
  - apply (proj1 (proj2 (proj2 (proj2 (validatePostCount_range
                                         (JsNum (Finite (25 # 2)))))))).
    right. exists (25 # 2)%Q. split; reflexivity.
  - apply (proj1 (proj2 (proj2 (proj2 (proj2 (validatePostCount_range
                                                (JsNum (Finite (5 # 2))))))))).
    exists (5 # 2)%Q. split; [reflexivity|]. split; [done|]. split; [done|].
    intros n Hn. unfold Qeq in Hn. simpl in Hn. lia.
Defined.

End ValidationClaims.

(* ===================================================================== *)
(** * Date formatting *)
(* ===================================================================== *)

Module DateClaims.
Import DateHelper.

Section WithMoment.

Variable Moment : Type.
Variable moment : JsValue -> Completion Moment.
Variable moment_now : Completion Moment.
Variable isValid : Moment -> Completion bool.
Variable moment_format : Moment -> string -> Completion string.
Variable diff : Moment -> Moment -> string -> Completion Z.

Abbreviation formatDate :=
  (formatDate Moment moment moment_now isValid moment_format diff).

(** C8: whatever the moment library does, [formatDate] returns a string
    and never throws; a missing date (undefined, null, the empty string,
    any falsy value) gives "Unknown date", and a present date that moment
    parses to an invalid moment gives "Invalid date". *)
Theorem formatDate_total (date : JsValue) (format : option string) :
  (exists s, formatDate date format = Normal s)
  /\ (truthy date = false -> formatDate date format = Normal "Unknown date")
  /\ formatDate JsUndefined format = Normal "Unknown date"
  /\ formatDate JsNull format = Normal "Unknown date"
  /\ formatDate (JsStr "") format = Normal "Unknown date"
  /\ (forall m, truthy date = true ->
                moment date = Normal m -> isValid m = Normal false ->
                formatDate date format = Normal "Invalid date").
Proof.
  repeat split; try reflexivity.
  - unfold DateHelper.formatDate.
    destruct (truthy date); [|by eexists]. simpl negb. cbv iota.
    destruct (moment date) as [m|e]; [|by eexists].
    simpl cbind. destruct (isValid m) as [[|]|e]; try by eexists.
    simpl cbind. simpl negb. cbv iota.
    destruct (String.eqb _ _).
    + destruct (getRelativeTime _ _ _ _) as [s|e]; by eexists.
    + destruct (moment_format _ _) as [s|e]; by eexists.
  - intros H. unfold DateHelper.formatDate. by rewrite H.
  - intros m Ht Hm Hv. unfold DateHelper.formatDate.
    rewrite Ht, Hm. simpl. by rewrite Hv.
Qed.

End WithMoment.

Lemma formatDate_total_witness :
  DateHelper.formatDate unit (fun _ => Normal tt) (Normal tt)
    (fun _ => Normal false) (fun _ _ => Throw "format")
    (fun _ _ _ => Throw "diff") (JsStr "not a date") None
  = Normal "Invalid date"
  /\
  DateHelper.formatDate unit (fun _ => Normal tt) (Normal tt)
    (fun _ => Normal false) (fun _ _ => Throw "format")
    (fun _ _ _ => Throw "diff") (JsNum NaN) (Some "relative")
  = Normal "Unknown date".
Proof.
  split.
  - apply (proj2 (proj2 (proj2 (proj2 (proj2
             (formatDate_total unit (fun _ => Normal tt) (Normal tt)
                (fun _ => Normal false) (fun _ _ => Throw "format")
                (fun _ _ _ => Throw "diff") (JsStr "not a date") None)))))
             tt); reflexivity.
  - apply (proj1 (proj2
             (formatDate_total unit (fun _ => Normal tt) (Normal tt)
                (fun _ => Normal false) (fun _ _ => Throw "format")
                (fun _ _ _ => Throw "diff") (JsNum NaN) (Some "relative"))));
      reflexivity.
Defined.

End DateClaims.

(* ===================================================================== *)
(** * Rendering: [TemplateService] *)
(* ===================================================================== *)

Module RenderFacts.
Import TemplateService.

Lemma lookup_snoc (h : heap) (o : Post) : (h ++ [o]) !! length h = Some o.
Proof. by apply list_lookup_middle. Qed.

Lemma insert_snoc (h : heap) (o o' : Post) :
  <[length h := o']> (h ++ [o]) = h ++ [o'].
Proof. induction h as [|x h IH]; [done|]. simpl. by rewrite IH. Qed.

(** What [processPost] leaves in the copy: the description cut when it is
    non-empty and longer than the limit, then the cover image filled in
    when it is empty. *)
Lemma processPost_run config (h : heap) (post : loc) (o : Post) :
  h !! post = Some o ->
  processPost post config h =
  Some (length h,
        h ++ [let o1 :=
                if str_truthy (description o)
                   && (Z.of_nat (String.length (description o))
                       >? descriptionLength config)
                then set_description
                       (substring (description o) 0 (descriptionLength config)
                        +:+ "...") o
                else o in
              if negb (str_truthy (coverImage o1))
              then set_coverImage placeholderImage o1
              else o1]).
Proof.
  intros Hpost. unfold processPost, st_bind, load, alloc, assign, st_ret.
  rewrite Hpost, lookup_snoc.
  destruct (str_truthy (description o) && _);
    repeat (first [rewrite lookup_snoc | rewrite insert_snoc | progress simpl]);
    destruct (negb (str_truthy (coverImage o)));
    repeat (first [rewrite lookup_snoc | rewrite insert_snoc | progress simpl]);
    done.
Qed.

(** Processing a list of live posts only allocates: the store grows by one
    object per post and the results are the new references. *)
Lemma array_map_processPost config (posts : list loc) (h : heap) :
  Forall (fun post => is_Some (h !! post)) posts ->
  exists fresh,
    array_map (fun post => processPost post config) posts h
    = Some (seq (length h) (length posts), h ++ fresh)
    /\ length fresh = length posts.
Proof.
  revert h. induction posts as [|post posts IH]; intros h Hlive.
  - exists []. by rewrite app_nil_r.
  - apply Forall_cons in Hlive as [[o Ho] Hlive].
    cbn [array_map]. unfold st_bind at 1.
    rewrite (processPost_run config h post o Ho).
    match goal with |- context [h ++ [?x]] => set (o' := x) end.
    destruct (IH (h ++ [o'])) as (fresh & Hrun & Hlen).
    { eapply Forall_impl; [apply Hlive|]. intros l [x Hx].
      exists x. by apply lookup_app_l_Some. }
    unfold st_bind, st_ret. rewrite Hrun.
    eexists (_ :: fresh). split.
    + rewrite length_app, Nat.add_1_r. simpl. by rewrite <- app_assoc.
    + simpl. by rewrite Hlen.
Qed.

(** Reading a list of live references and formatting each object leaves
    the store as it was. *)
Lemma array_map_load (f : Post -> string) (ls : list loc) (h : heap) :
  Forall (fun l => is_Some (h !! l)) ls ->
  exists outs,
    array_map (fun l => (let* o := load l in st_ret (f o))%st) ls h
    = Some (outs, h).
Proof.
  induction ls as [|l ls IH]; intros Hlive.
  - by eexists.
  - apply Forall_cons in Hlive as [[o Ho] Hlive].
    destruct (IH Hlive) as [outs Houts].
    exists (f o :: outs). cbn [array_map].
    unfold st_bind, load, st_ret in *. by rewrite Ho, Houts.
Qed.

(** Every layout reads the store and returns it unchanged. *)
Lemma layouts_read_only config (ls : list loc) (h : heap) :
  Forall (fun l => is_Some (h !! l)) ls ->
  (exists out, generateCards ls config h = Some (out, h)) /\
  (forall pos, exists out, generateStackedCards ls config pos h = Some (out, h)) /\
  (exists out, generateList ls config h = Some (out, h)) /\
  (exists out, generateTable ls config h = Some (out, h)).
Proof.
  intros Hlive. repeat split; [|intros pos| |].
  - destruct (array_map_load (card config) ls h Hlive) as [outs Ho].
    unfold generateCards, st_bind, st_ret in *. rewrite Ho. by eexists.
  - destruct (array_map_load (stackedCard config pos) ls h Hlive) as [outs Ho].
    unfold generateStackedCards, st_bind, st_ret in *. rewrite Ho. by eexists.
  - destruct (array_map_load listItem ls h Hlive) as [outs Ho].
    unfold generateList, st_bind, st_ret in *. rewrite Ho. by eexists.
  - destruct (array_map_load (tableRow config) ls h Hlive) as [outs Ho].
    unfold generateTable, st_bind, st_ret in *. rewrite Ho. by eexists.
Qed.


End RenderFacts.

Module RenderClaims.
Import TemplateService TemplateHelper RenderFacts.

(** C1 (evaluated on the code): on a post whose title is
    "<script>alert(1)</script>", each of the four HTML layouts returns a
    string in which the raw "<script>" occurs and its escaped form does
    not; [escapeHtml] does escape it, and [generateLinkHtml], which calls
    [escapeHtml], keeps the raw tag out of its output. *)
Theorem layouts_interpolate_title_unescaped :
  Forall
    (fun fmt =>
       exists out h',
         generateContent [0%nat] (with_displayFormat fmt exampleConfig)
           [scriptPost] = Some (out, h')
         /\ includes out "<script>" = true
         /\ includes out "&lt;script&gt;" = false)
    ["card"; "stacked-left"; "stacked-right"; "table"]
  /\ escapeHtml "<script>" = "&lt;script&gt;"
  /\ includes
       (generateLinkHtml (url scriptPost) (title scriptPost) defaultLinkOptions)
       "<script>" = false.
Proof.
  split; [|split; reflexivity].
  repeat constructor;
    (eexists; eexists; split; [vm_compute; reflexivity|]);
    split; vm_compute; reflexivity.
Qed.

(** C5, as stated, fails for an empty [noPostsMessage]: the default
    message is returned instead of the empty string. *)
Lemma empty_message_is_replaced_by_default :
  let config := with_noPostsMessage "" exampleConfig in
  generateContent [] config [] <> Some (noPostsMessage config, []).
Proof. discriminate. Qed.

(** C5 (amended): for every config, rendering the empty post list returns
    [config.noPostsMessage] verbatim when that message is non-empty, and
    the default "No blog posts found." when it is empty; the store is not
    touched. *)
Theorem empty_posts_message config (h : heap) :
  generateContent [] config h
  = Some (if String.eqb (noPostsMessage config) ""
          then "No blog posts found."
          else noPostsMessage config, h).
Proof.
  unfold generateContent, str_or, str_truthy. simpl.
  by destruct (String.eqb (noPostsMessage config) "").
Qed.




(** C10: rendering does not mutate its input. For every store, every list
    of live post references and every config, [generateContent] returns,
    and the resulting store is the initial one followed by newly allocated
    objects: every object that existed before the call, and so every field
    of every input post, is unchanged. *)
Theorem generateContent_preserves_input config (posts : list loc) (h : heap) :
  Forall (fun post => is_Some (h !! post)) posts ->
  exists out h',
    generateContent posts config h = Some (out, h') /\
    (exists fresh, h' = h ++ fresh) /\
    (forall l o, h !! l = Some o -> h' !! l = Some o).
Proof.
  intros Hlive.
  assert (Hframe : forall fresh l o,
             h !! l = Some o -> (h ++ fresh) !! l = Some o)
    by (intros; by apply lookup_app_l_Some).
  unfold generateContent. destruct posts as [|post posts].
  - simpl. eexists _, h. split; [reflexivity|].
    split; [exists []; by rewrite app_nil_r|done].
  - set (ps := post :: posts) in *.
    change (length ps =? 0)%nat with false. cbv iota.
    destruct (array_map_processPost config ps h Hlive) as (fresh & Hrun & Hlen).
    unfold st_bind. rewrite Hrun.
    assert (Hlive' : Forall (fun l => is_Some ((h ++ fresh) !! l))
                       (seq (length h) (length ps))).
    { apply Forall_forall. intros l Hl. apply lookup_lt_is_Some.
      apply list_elem_of_In, in_seq in Hl. rewrite length_app. lia. }
    destruct (layouts_read_only config _ _ Hlive')
      as ([o1 H1] & H2 & [o3 H3] & [o4 H4]).
    destruct (H2 "left") as [o2l H2l]. destruct (H2 "right") as [o2r H2r].
    repeat (destruct (String.eqb (displayFormat config) _));
      eexists _, (h ++ fresh); (split; [eassumption|]);
      (split; [by exists fresh|by apply Hframe]).
Qed.

Lemma generateContent_preserves_input_witness :
  exists out h',
    generateContent [0%nat; 1%nat] (with_displayFormat "card" exampleConfig)
      [examplePost; scriptPost] = Some (out, h') /\
    h' !! 0%nat = Some examplePost /\ h' !! 1%nat = Some scriptPost.
Proof.
  destruct (generateContent_preserves_input
              (with_displayFormat "card" exampleConfig) [0%nat; 1%nat]
              [examplePost; scriptPost])
    as (out & h' & Hrun & _ & Hsame).
  - repeat constructor; by eexists.
  - exists out, h'. split; [done|]. split; by apply Hsame.
Defined.

End RenderClaims.

(* ===================================================================== *)
(** * Further properties of the helpers *)
(* ===================================================================== *)

(** ** Reversal, trimming and character classes *)

Section TrimFacts.

Implicit Types (s t u a b : string) (c : ascii) (f : ascii -> bool).

Lemma mem_app c a b : mem c (a +:+ b) = mem c a || mem c b.
Proof.
  induction a as [|x a IH]; [done|].
  rewrite str_app_cons. simpl. rewrite IH. by destruct (Ascii.eqb c x).
Qed.

Lemma any_char_mem f s c : any_char f s = false -> f c = true -> mem c s = false.
Proof.
  induction s as [|x s IH]; [done|]. simpl.
  intros [Hx Hs]%orb_false_iff Hc.
  destruct (Ascii.eqb_spec c x) as [->|_]; [congruence|by apply IH].
Qed.

Lemma rev_app_length s t :
  String.length (String.rev_app s t) = (String.length s + String.length t)%nat.
Proof.
  revert t. induction s as [|x s IH]; intros t; [done|].
  simpl. rewrite IH. simpl. lia.
Qed.

Lemma rev_length s : String.length (String.rev s) = String.length s.
Proof. unfold String.rev. rewrite rev_app_length. simpl. lia. Qed.

Lemma rev_app_rev_app s t u :
  String.rev_app (String.rev_app s t) u = String.rev_app t (s +:+ u).
Proof.
  revert t u. induction s as [|x s IH]; intros t u; [done|].
  simpl. by rewrite IH.
Qed.

Lemma rev_involutive s : String.rev (String.rev s) = s.
Proof.
  unfold String.rev. rewrite rev_app_rev_app. simpl. apply str_app_nil_r.
Qed.

Lemma rev_app_app a b t :
  String.rev_app (a +:+ b) t = String.rev_app b (String.rev_app a t).
Proof.
  revert t. induction a as [|x a IH]; intros t; [done|].
  rewrite str_app_cons. simpl. apply IH.
Qed.

Lemma rev_snoc a c : String.rev (a +:+ String c "") = String c (String.rev a).
Proof. unfold String.rev. by rewrite rev_app_app. Qed.

Lemma all_chars_rev_app f s t :
  all_chars f (String.rev_app s t) = all_chars f s && all_chars f t.
Proof.
  revert t. induction s as [|x s IH]; intros t; [done|].
  simpl. rewrite IH. simpl. by destruct (f x), (all_chars f s), (all_chars f t).
Qed.

Lemma trimStart_length s : (String.length (trimStart s) <= String.length s)%nat.
Proof.
  induction s as [|x s IH]; [done|]. simpl.
  destruct (is_white_space x); simpl; lia.
Qed.

Lemma trim_length s : (String.length (trim s) <= String.length s)%nat.
Proof.
  unfold trim, trimEnd. rewrite rev_length.
  etrans; [apply trimStart_length|]. rewrite rev_length. apply trimStart_length.
Qed.

(** A text whose first and last code units are not white space is its own
    trim. *)
Lemma trim_id c a d :
  is_white_space c = false -> is_white_space d = false ->
  trim (String c (a +:+ String d "")) = String c (a +:+ String d "").
Proof.
  intros Hc Hd. unfold trim, trimEnd. simpl trimStart. rewrite Hc.
  rewrite <- str_app_cons, rev_snoc. simpl trimStart. rewrite Hd.
  by rewrite <- rev_snoc, rev_involutive.
Qed.

(** A non-empty text without white space does not trim to nothing. *)
Lemma trim_nonempty s :
  s <> "" -> all_chars (fun c => negb (is_white_space c)) s = true ->
  String.length (trim s) <> 0%nat.
Proof.
  intros Hs Hall. unfold trim, trimEnd.
  destruct s as [|c s]; [done|]. simpl in Hall.
  apply andb_true_iff in Hall as [Hc Hall]. apply negb_true_iff in Hc.
  simpl trimStart. rewrite Hc. rewrite rev_length.
  assert (Hrev : all_chars (fun c => negb (is_white_space c))
                   (String.rev (String c s)) = true).
  { unfold String.rev. rewrite all_chars_rev_app. simpl.
    by rewrite Hc, Hall. }
  pose proof (rev_length (String c s)) as Hlen.
  destruct (String.rev (String c s)) as [|d r]; [done|].
  simpl in Hrev. apply andb_true_iff in Hrev as [Hd _].
  apply negb_true_iff in Hd. simpl. by rewrite Hd.
Qed.

Lemma rev_app_eq s t : String.rev_app s t = String.rev s +:+ t.
Proof.
  revert t. induction s as [|x s IH]; intros t; [done|].
  unfold String.rev. simpl. rewrite (IH (String x t)), (IH (String x "")).
  by rewrite str_app_assoc.
Qed.

Lemma rev_app_distr a b : String.rev (a +:+ b) = String.rev b +:+ String.rev a.
Proof.
  unfold String.rev at 1. rewrite rev_app_app.
  by rewrite rev_app_eq.
Qed.

(** What [trimStart] removes is white space, and what it leaves does not
    begin with white space. *)
Lemma trimStart_suffix s :
  exists a, s = a +:+ trimStart s /\ all_chars is_white_space a = true.
Proof.
  induction s as [|x s (a & Ha & Hws)]; [by exists ""|]. simpl.
  destruct (is_white_space x) eqn:Hx.
  - exists (String x a). rewrite str_app_cons, <- Ha. simpl.
    by rewrite Hx, Hws.
  - by exists "".
Qed.

Lemma trimStart_head s c r :
  trimStart s = String c r -> is_white_space c = false.
Proof.
  induction s as [|x s IH]; [done|]. simpl.
  destruct (is_white_space x) eqn:Hx; [done|].
  intros H. injection H as <- _. done.
Qed.

(** The same for [trimEnd], at the other end. *)
Lemma trimEnd_prefix s :
  exists b, s = trimEnd s +:+ b /\ all_chars is_white_space b = true.
Proof.
  unfold trimEnd.
  destruct (trimStart_suffix (String.rev s)) as (a & Ha & Hws).
  exists (String.rev a). split.
  - rewrite <- (rev_involutive s) at 1. rewrite Ha at 1. apply rev_app_distr.
  - unfold String.rev. rewrite all_chars_rev_app, Hws. done.
Qed.

Lemma trimEnd_last s a d :
  trimEnd s = a +:+ String d "" -> is_white_space d = false.
Proof.
  unfold trimEnd. intros H. apply (f_equal String.rev) in H.
  rewrite rev_involutive, rev_snoc in H. by apply trimStart_head in H.
Qed.

(** [trim s] is [s] without the white space at its two ends. *)
Lemma trim_shape s :
  exists a b,
    s = a +:+ trim s +:+ b
    /\ all_chars is_white_space a = true
    /\ all_chars is_white_space b = true
    /\ (forall c r, trim s = String c r -> is_white_space c = false)
    /\ (forall u d, trim s = u +:+ String d "" -> is_white_space d = false).
Proof.
  unfold trim.
  destruct (trimStart_suffix s) as (a & Ha & Hwa).
  destruct (trimEnd_prefix (trimStart s)) as (b & Hb & Hwb).
  exists a, b. repeat split; try done.
  - rewrite Ha at 1. by rewrite Hb at 1.
  - intros c r Hc. rewrite Hc, str_app_cons in Hb.
    by apply trimStart_head in Hb.
  - intros u d. apply trimEnd_last.
Qed.

End TrimFacts.

(** ** [TemplateHelper.escapeHtml] and [truncateText] *)

Module EscapeFacts.
Import TemplateHelper.

Lemma escapeHtml_app a b : escapeHtml (a +:+ b) = escapeHtml a +:+ escapeHtml b.
Proof.
  induction a as [|x a IH]; [done|].
  rewrite str_app_cons. simpl. by rewrite IH, str_app_assoc.
Qed.

(** The five cases of [escape_char], and the case of any other code unit. *)
Lemma escape_char_cases c :
  (c = "&"%char /\ escape_char c = "&amp;") \/
  (c = "<"%char /\ escape_char c = "&lt;") \/
  (c = ">"%char /\ escape_char c = "&gt;") \/
  (c = ascii_of_nat 34 /\ escape_char c = "&quot;") \/
  (c = "'"%char /\ escape_char c = "&#39;") \/
  (c <> "&"%char /\ c <> "<"%char /\ c <> ">"%char /\ c <> ascii_of_nat 34
   /\ c <> "'"%char /\ escape_char c = String c "").
Proof.
  unfold escape_char.
  destruct (Ascii.eqb_spec c "&") as [->|H1]; [by left|].
  destruct (Ascii.eqb_spec c "<") as [->|H2]; [by right; left|].
  destruct (Ascii.eqb_spec c ">") as [->|H3]; [by right; right; left|].
  destruct (Ascii.eqb_spec c (ascii_of_nat 34)) as [->|H4];
    [by right; right; right; left|].
  destruct (Ascii.eqb_spec c "'") as [->|H5];
    [by right; right; right; right; left|].
  by repeat right.
Qed.

End EscapeFacts.

Module HelperProperties.
Import TemplateHelper EscapeFacts.

(** X1: the output of [escapeHtml] contains no angle bracket and no quote
    of either kind, whatever the text. *)
Theorem escapeHtml_output_has_no_markup (text : string) :
  mem "<" (escapeHtml text) = false
  /\ mem ">" (escapeHtml text) = false
  /\ mem (ascii_of_nat 34) (escapeHtml text) = false
  /\ mem "'" (escapeHtml text) = false.
Proof.
  induction text as [|c text (IH1 & IH2 & IH3 & IH4)]; [done|].
  simpl escapeHtml. rewrite !mem_app, IH1, IH2, IH3, IH4, !orb_false_r.
  destruct (escape_char_cases c)
    as [[_ ->]|[[_ ->]|[[_ ->]|[[_ ->]|[[_ ->]|(_ & H2 & H3 & H4 & H5 & ->)]]]]];
    try (by repeat split).
  cbn [mem]. repeat split.
  - destruct (Ascii.eqb_spec "<" c); congruence.
  - destruct (Ascii.eqb_spec ">" c); congruence.
  - destruct (Ascii.eqb_spec (ascii_of_nat 34) c); congruence.
  - destruct (Ascii.eqb_spec "'" c); congruence.
Qed.

(** X2: [escapeHtml] loses nothing: two texts with the same escaped form are
    the same text. *)
Theorem escapeHtml_injective (a b : string) :
  escapeHtml a = escapeHtml b -> a = b.
Proof.
  revert b. induction a as [|x a IH]; intros [|y b] H; simpl in H.
  - done.
  - destruct (escape_char_cases y)
      as [[_ Hy]|[[_ Hy]|[[_ Hy]|[[_ Hy]|[[_ Hy]|(_ & _ & _ & _ & _ & Hy)]]]]];
      rewrite Hy in H; by rewrite str_app_cons in H.
  - destruct (escape_char_cases x)
      as [[_ Hx]|[[_ Hx]|[[_ Hx]|[[_ Hx]|[[_ Hx]|(_ & _ & _ & _ & _ & Hx)]]]]];
      rewrite Hx in H; by rewrite str_app_cons in H.
  - destruct (escape_char_cases x)
      as [[Ex Hx]|[[Ex Hx]|[[Ex Hx]|[[Ex Hx]|[[Ex Hx]|(X1 & X2 & X3 & X4 & X5 & Hx)]]]]];
    destruct (escape_char_cases y)
      as [[Ey Hy]|[[Ey Hy]|[[Ey Hy]|[[Ey Hy]|[[Ey Hy]|(Y1 & Y2 & Y3 & Y4 & Y5 & Hy)]]]]];
    rewrite Hx, Hy in H; repeat rewrite str_app_cons in H;
      rewrite ?str_app_nil_l in H;
      try discriminate H;
      try (injection H as H; subst; f_equal; by apply IH);
      try (injection H as ? ?; subst; first [congruence | f_equal; by apply IH]).
Qed.

Lemma escapeHtml_injective_witness :
  "Tom & Jerry" = "Tom & Jerry".
Proof. apply (escapeHtml_injective "Tom & Jerry" "Tom & Jerry"). reflexivity. Defined.

(** X3: a text that contains none of the five special characters is
    returned unchanged by [escapeHtml]. *)
Theorem escapeHtml_plain_text_unchanged (text : string) :
  mem "&" text = false -> mem "<" text = false -> mem ">" text = false ->
  mem (ascii_of_nat 34) text = false -> mem "'" text = false ->
  escapeHtml text = text.
Proof.
  induction text as [|c text IH]; [done|]. cbn [mem].
  destruct (Ascii.eqb_spec "&" c) as [|H1]; [done|].
  destruct (Ascii.eqb_spec "<" c) as [|H2]; [done|].
  destruct (Ascii.eqb_spec ">" c) as [|H3]; [done|].
  destruct (Ascii.eqb_spec (ascii_of_nat 34) c) as [|H4]; [done|].
  destruct (Ascii.eqb_spec "'" c) as [|H5]; [done|].
  intros ? ? ? ? ?. simpl escapeHtml. rewrite IH by done.
  destruct (escape_char_cases c)
    as [[-> _]|[[-> _]|[[-> _]|[[-> _]|[[-> _]|(_ & _ & _ & _ & _ & ->)]]]]];
    done.
Qed.

Lemma escapeHtml_plain_text_unchanged_witness :
  escapeHtml "Hello world" = "Hello world".
Proof. apply escapeHtml_plain_text_unchanged; reflexivity. Defined.

(** X4: escaping a concatenation is concatenating the escaped parts, so
    text can be escaped piece by piece. *)
Theorem escapeHtml_concatenation (a b : string) :
  escapeHtml (a +:+ b) = escapeHtml a +:+ escapeHtml b.
Proof. apply escapeHtml_app. Qed.

(** X5: [truncateText] returns a text no longer than the limit unchanged;
    a longer non-empty text becomes a body followed by the suffix, where
    the body is the first [length] characters of the text without the white
    space at their two ends; the result is at most [length] plus the suffix
    length long. *)
Theorem truncateText_bound (text : string) (length : Z) (suffix : string) :
  (Z.of_nat (String.length text) <= length ->
   truncateText text length suffix = text)
  /\ (text <> "" -> length < Z.of_nat (String.length text) ->
      exists before body after,
        truncateText text length suffix = body +:+ suffix
        /\ str_take (Z.to_nat length) text = before +:+ body +:+ after
        /\ all_chars is_white_space before = true
        /\ all_chars is_white_space after = true
        /\ (forall c r, body = String c r -> is_white_space c = false)
        /\ (forall u d, body = u +:+ String d "" -> is_white_space d = false)
        /\ (String.length (truncateText text length suffix)
            <= Z.to_nat length + String.length suffix)%nat).
Proof.
  unfold truncateText, str_truthy. split.
  - intros Hle. destruct (String.eqb_spec text "") as [->|_]; [done|].
    simpl negb. cbv iota. by rewrite (proj2 (Z.leb_le _ _) Hle).
  - intros Hne Hlt. destruct (String.eqb_spec text "") as [|_]; [done|].
    simpl negb. cbv iota. rewrite (proj2 (Z.leb_gt _ _) Hlt).
    assert (Hsub : substring text 0 length = str_take (Z.to_nat length) text).
    { destruct (Z.le_gt_cases 0 length) as [H0|H0].
      - rewrite <- (Z2Nat.id length) at 1 by done. apply substring_0.
      - unfold substring, clamp. by destruct length. }
    rewrite Hsub.
    destruct (trim_shape (str_take (Z.to_nat length) text))
      as (before & after & Heq & Hwb & Hwa & Hhead & Hlast).
    exists before, (trim (str_take (Z.to_nat length) text)), after.
    repeat split; try done.
    rewrite str_length_app.
    pose proof (trim_length (str_take (Z.to_nat length) text)) as Ht.
    rewrite str_take_length in Ht. lia.
Qed.

Lemma truncateText_bound_witness :
  exists before body after,
    truncateText "hello world and more" 6 "..." = body +:+ "..."
    /\ "hello " = before +:+ body +:+ after
    /\ all_chars is_white_space before = true
    /\ all_chars is_white_space after = true.
Proof.
  destruct (truncateText_bound "hello world and more" 6 "...") as [_ H].
  destruct H as (before & body & after & H1 & H2 & H3 & H4 & _);
    [done|simpl; lia|].
  by exists before, body, after.
Defined.

End HelperProperties.

(** ** [ValidationHelper]: the other validators *)

Module ValidationFacts.
Import ValidationHelper ValidationClaims.

Lemma num_lt_inject n k : num_lt (Finite (inject_Z n)) k = (n <? k).
Proof.
  apply eq_true_iff_eq. by rewrite num_lt_iff, Z.ltb_lt, <- Zlt_Qlt.
Qed.

Lemma num_gt_inject n k : num_gt (Finite (inject_Z n)) k = (k <? n).
Proof.
  apply eq_true_iff_eq. by rewrite num_gt_iff, Z.ltb_lt, <- Zlt_Qlt.
Qed.

Lemma isInteger_inject n : isInteger (Finite (inject_Z n)) = true.
Proof. apply isInteger_iff. by exists n. Qed.

Lemma validatePostCount_num n :
  validatePostCount (num n) = Normal tt <-> 1 <= n <= 12.
Proof.
  unfold validatePostCount, num. simpl as_number. cbv iota. simpl isNaN. cbv iota.
  rewrite num_lt_inject, num_gt_inject, isInteger_inject. simpl negb. cbv iota.
  destruct (Z.ltb_spec n 1), (Z.ltb_spec 12 n); split; intros; try done; lia.
Qed.

Lemma validateNumericOption_num name n lo hi :
  validateNumericOption name (num n) lo hi = Normal tt <-> lo <= n <= hi.
Proof.
  unfold validateNumericOption, num. simpl as_number. cbv iota. simpl isNaN.
  cbv iota.
  rewrite num_lt_inject, num_gt_inject, isInteger_inject. simpl negb. cbv iota.
  destruct (Z.ltb_spec n lo), (Z.ltb_spec hi n); split; intros; try done; lia.
Qed.

Lemma all_chars_impl (f g : ascii -> bool) s :
  (forall c, f c = true -> g c = true) ->
  all_chars f s = true -> all_chars g s = true.
Proof.
  intros Hfg. induction s as [|c s IH]; [done|]. simpl.
  intros [Hc Hs]%andb_true_iff. by rewrite (Hfg _ Hc), IH.
Qed.

Lemma name_char_not_space c :
  is_name_char c = true -> negb (is_white_space c) = true.
Proof. destruct c as [[] [] [] [] [] [] [] []]; vm_compute; done. Qed.

Lemma ends_with_spec p s : ends_with p s = true <-> exists a, s = a +:+ p.
Proof.
  unfold ends_with. rewrite starts_with_spec. split.
  - intros [r Hr]. exists (String.rev r).
    rewrite <- (rev_involutive s), Hr, rev_app_distr.
    by rewrite rev_involutive.
  - intros [a ->]. exists (String.rev a). apply rev_app_distr.
Qed.

Lemma validateDisplayFormat_In s :
  validateDisplayFormat (JsStr s) = Normal tt -> In s getSupportedFormats.
Proof.
  unfold validateDisplayFormat, array_includes. simpl as_string. cbv iota.
  destruct (negb (truthy (JsStr s))); [discriminate|].
  destruct (existsb (String.eqb s) getSupportedFormats) eqn:Hex; [|discriminate].
  intros _. apply existsb_exists in Hex as (x & Hin & Hx).
  by apply String.eqb_eq in Hx as ->.
Qed.

End ValidationFacts.

Module ValidationProperties.
Import ValidationHelper ValidationClaims ValidationFacts.

(** X6: [validateNumericOption] returns normally exactly on the numbers
    that are integers within [min .. max]; the infinities, NaN, fractions
    and non-numbers are all rejected. *)
Theorem validateNumericOption_range (optionName : string) (v : JsValue)
    (min max : Z) :
  validateNumericOption optionName v min max = Normal tt <->
  exists q n, v = JsNum (Finite q) /\ (q == inject_Z n)%Q /\ min <= n <= max.
Proof.
  split.
  - destruct v as [| | |[| | |q]| |]; try discriminate.
    unfold validateNumericOption. simpl as_number. cbv iota. simpl isNaN.
    cbv iota.
    destruct (isInteger (Finite q)) eqn:Hint; [|discriminate].
    destruct (num_lt (Finite q) min) eqn:Hlt; [discriminate|].
    destruct (num_gt (Finite q) max) eqn:Hgt; [discriminate|].
    intros _. apply isInteger_iff in Hint as [n Hn].
    exists q, n. split; [done|]. split; [done|].
    apply not_true_iff_false in Hlt, Hgt.
    rewrite num_lt_iff in Hlt. rewrite num_gt_iff in Hgt.
    apply Qnot_lt_le in Hlt, Hgt. rewrite Hn in Hlt, Hgt.
    by rewrite <- !Zle_Qle in Hlt, Hgt.
  - intros (q & n & -> & Hq & Hn).
    unfold validateNumericOption. simpl as_number. cbv iota. simpl isNaN.
    cbv iota.
    assert (Hlt : num_lt (Finite q) min = false).
    { apply not_true_iff_false. rewrite num_lt_iff. apply Qle_not_lt.
      rewrite Hq, <- Zle_Qle. lia. }
    assert (Hgt : num_gt (Finite q) max = false).
    { apply not_true_iff_false. rewrite num_gt_iff. apply Qle_not_lt.
      rewrite Hq, <- Zle_Qle. lia. }
    assert (Hint : isInteger (Finite q) = true)
      by (apply isInteger_iff; by exists n).
    by rewrite Hlt, Hgt, Hint.
Qed.

(** X7: [validatePublicationName] returns normally exactly on the non-empty
    strings of at most 100 characters made of letters, digits, hyphens,
    dots and underscores. *)
Theorem validatePublicationName_shape (v : JsValue) :
  validatePublicationName v = Normal tt <->
  exists s, v = JsStr s /\ s <> "" /\ all_chars is_name_char s = true
            /\ (String.length s <= 100)%nat.
Proof.
  split.
  - destruct v as [| | | |s|]; try discriminate.
    unfold validatePublicationName. simpl as_string. cbv iota.
    simpl truthy. unfold str_truthy.
    destruct (String.eqb_spec s "") as [|Hne]; [discriminate|].
    simpl negb. cbv iota.
    destruct (String.length (trim s) =? 0)%nat; [discriminate|].
    destruct (all_chars is_name_char s) eqn:Hall; [|discriminate].
    simpl. destruct (Nat.ltb_spec 100 (String.length s)); [discriminate|].
    intros _. by exists s.
  - intros (s & -> & Hne & Hall & Hlen).
    unfold validatePublicationName. simpl as_string. cbv iota.
    simpl truthy. unfold str_truthy.
    destruct (String.eqb_spec s "") as [|_]; [done|].
    simpl negb. cbv iota.
    assert (Htrim : String.length (trim s) <> 0%nat).
    { apply trim_nonempty; [done|].
      eapply all_chars_impl; [apply name_char_not_space|done]. }
    apply Nat.eqb_neq in Htrim. rewrite Htrim, Hall. simpl.
    by destruct (Nat.ltb_spec 100 (String.length s)); [lia|].
Qed.

(** X8: [validateDisplayFormat] returns normally exactly on the five
    supported format names. *)
Theorem validateDisplayFormat_supported (v : JsValue) :
  validateDisplayFormat v = Normal tt <->
  exists s, v = JsStr s /\
            (s = "card" \/ s = "stacked-left" \/ s = "stacked-right"
             \/ s = "list" \/ s = "table").
Proof.
  split.
  - destruct v as [| | | |s|]; try discriminate.
    unfold validateDisplayFormat, array_includes, getSupportedFormats.
    simpl as_string. cbv iota. simpl truthy.
    destruct (String.eqb_spec s "") as [|_]; [discriminate|].
    simpl negb. cbv iota. simpl existsb.
    destruct (String.eqb_spec s "card"); [intros _; exists s; tauto|].
    destruct (String.eqb_spec s "stacked-left"); [intros _; exists s; tauto|].
    destruct (String.eqb_spec s "stacked-right"); [intros _; exists s; tauto|].
    destruct (String.eqb_spec s "list"); [intros _; exists s; tauto|].
    destruct (String.eqb_spec s "table"); [intros _; exists s; tauto|].
    discriminate.
  - intros (s & -> & [->|[->|[->|[->| ->]]]]); reflexivity.
Qed.

(** X9: a file name accepted by [validateFilename] is a non-empty string of
    at most 255 characters with none of the forbidden characters, no ".."
    anywhere and no leading slash. *)
Theorem validateFilename_accepts (v : JsValue) :
  validateFilename v = Normal tt ->
  exists s, v = JsStr s /\ s <> ""
            /\ (forall c, is_invalid_filename_char c = true -> mem c s = false)
            /\ ~ occurs ".." s
            /\ (forall r, s <> "/" +:+ r)
            /\ (String.length s <= 255)%nat.
Proof.
  destruct v as [| | | |s|]; try discriminate.
  unfold validateFilename. simpl as_string. cbv iota. simpl truthy.
  destruct (String.eqb_spec s "") as [|Hne]; [discriminate|].
  simpl negb. cbv iota.
  destruct (String.length (trim s) =? 0)%nat; [discriminate|].
  destruct (any_char is_invalid_filename_char s) eqn:Hany; [discriminate|].
  destruct (includes s "..") eqn:Hdots; [discriminate|].
  destruct (starts_with "/" s) eqn:Hslash; [discriminate|].
  simpl orb. cbv iota.
  destruct (Nat.ltb_spec 255 (String.length s)); [discriminate|].
  intros _. exists s. repeat split; try done.
  - intros c Hc. by eapply any_char_mem.
  - by apply includes_false.
  - intros r Hr. apply not_true_iff_false in Hslash. apply Hslash.
    apply starts_with_spec. by exists r.
Qed.

Lemma validateFilename_accepts_witness :
  exists s, JsStr "docs/BLOG.md" = JsStr s /\ s <> ""
            /\ (forall c, is_invalid_filename_char c = true -> mem c s = false)
            /\ ~ occurs ".." s
            /\ (forall r, s <> "/" +:+ r)
            /\ (String.length s <= 255)%nat.
Proof. apply (validateFilename_accepts (JsStr "docs/BLOG.md")). reflexivity. Defined.

(** X10: a branch name accepted by [validateBranchName] is a non-empty
    string of at most 250 characters that neither starts nor ends with a
    dot, contains no "..", no white space and none of the characters
    tilde, caret, colon, question mark, star, square brackets, backslash. *)
Theorem validateBranchName_accepts (v : JsValue) :
  validateBranchName v = Normal tt ->
  exists s, v = JsStr s /\ s <> ""
            /\ (forall r, s <> "." +:+ r)
            /\ (forall a, s <> a +:+ ".")
            /\ ~ occurs ".." s
            /\ (forall c, is_white_space c = true -> mem c s = false)
            /\ (forall c, is_invalid_branch_char c = true -> mem c s = false)
            /\ (String.length s <= 250)%nat.
Proof.
  destruct v as [| | | |s|]; try discriminate.
  unfold validateBranchName, invalidPatterns. simpl as_string. cbv iota.
  simpl truthy.
  destruct (String.eqb_spec s "") as [|Hne]; [discriminate|].
  simpl negb. cbv iota.
  destruct (String.length (trim s) =? 0)%nat; [discriminate|].
  cbn [existsb].
  destruct (starts_with "." s) eqn:Hstart; [discriminate|].
  destruct (ends_with "." s) eqn:Hend; [discriminate|].
  destruct (includes s "..") eqn:Hdots; [discriminate|].
  destruct (any_char is_white_space s) eqn:Hspace; [discriminate|].
  destruct (any_char is_invalid_branch_char s) eqn:Hinv; [discriminate|].
  simpl orb. cbv iota.
  destruct (Nat.ltb_spec 250 (String.length s)); [discriminate|].
  intros _. exists s. repeat split; try done.
  - intros r Hr. apply not_true_iff_false in Hstart. apply Hstart.
    apply starts_with_spec. by exists r.
  - intros a Ha. apply not_true_iff_false in Hend. apply Hend.
    apply ends_with_spec. by exists a.
  - by apply includes_false.
  - intros c Hc. exact (any_char_mem is_white_space s c Hspace Hc).
  - intros c Hc. exact (any_char_mem is_invalid_branch_char s c Hinv Hc).
Qed.

Lemma validateBranchName_accepts_witness :
  exists s, JsStr "feature/blog-1.2" = JsStr s /\ s <> ""
            /\ (forall r, s <> "." +:+ r)
            /\ (forall a, s <> a +:+ ".")
            /\ ~ occurs ".." s
            /\ (forall c, is_white_space c = true -> mem c s = false)
            /\ (forall c, is_invalid_branch_char c = true -> mem c s = false)
            /\ (String.length s <= 250)%nat.
Proof.
  apply (validateBranchName_accepts (JsStr "feature/blog-1.2")). reflexivity.
Defined.

(** X11: a config accepted by [validateInputs] has its post count within
    1..12, one of the five display formats, card width within 100..1200,
    image width and height within 50..500 and description length within
    50..1000. *)
Theorem validateInputs_establishes_bounds (config : Config) :
  validateInputs config = Normal tt ->
  1 <= postCount config <= 12
  /\ In (displayFormat config) getSupportedFormats
  /\ 100 <= cardWidth config <= 1200
  /\ 50 <= imageWidth config <= 500
  /\ 50 <= imageHeight config <= 500
  /\ 50 <= descriptionLength config <= 1000.
Proof.
  unfold validateInputs, validateCustomizationOptions, cbind.
  destruct (validatePublicationName _) as [[]|]; [|discriminate].
  destruct (validatePostCount _) as [[]|] eqn:Hcount; [|discriminate].
  destruct (validateDisplayFormat _) as [[]|] eqn:Hformat; [|discriminate].
  destruct (validateFilename _) as [[]|]; [|discriminate].
  destruct (validateNumericOption "cardWidth" _ _ _) as [[]|] eqn:Hcw;
    [|discriminate].
  destruct (validateNumericOption "imageWidth" _ _ _) as [[]|] eqn:Hiw;
    [|discriminate].
  destruct (validateNumericOption "imageHeight" _ _ _) as [[]|] eqn:Hih;
    [|discriminate].
  destruct (validateNumericOption "descriptionLength" _ _ _) as [[]|] eqn:Hdl;
    [|discriminate].
  intros _.
  apply validatePostCount_num in Hcount.
  apply validateNumericOption_num in Hcw, Hiw, Hih, Hdl.
  apply validateDisplayFormat_In in Hformat.
  done.
Qed.

Lemma validateInputs_establishes_bounds_witness :
  1 <= postCount exampleConfig <= 12
  /\ In (displayFormat exampleConfig) getSupportedFormats
  /\ 100 <= cardWidth exampleConfig <= 1200
  /\ 50 <= imageWidth exampleConfig <= 500
  /\ 50 <= imageHeight exampleConfig <= 500
  /\ 50 <= descriptionLength exampleConfig <= 1000.
Proof. apply (validateInputs_establishes_bounds exampleConfig). reflexivity. Defined.

End ValidationProperties.

(** ** [TemplateService]: processing and the layouts *)

Module RenderMoreFacts.
Import TemplateService RenderFacts.

Lemma processPost_copy config (h : heap) (post : loc) (o : Post) :
  h !! post = Some o ->
  processPost post config h = Some (length h, h ++ [processedCopy config o]).
Proof. apply processPost_run. Qed.

(** Processing live posts appends the processed copies, in order. *)
Lemma array_map_processPost_objs config (posts : list loc) (os : list Post) :
  forall h : heap,
    Forall2 (fun post o => h !! post = Some o) posts os ->
    array_map (fun post => processPost post config) posts h
    = Some (seq (length h) (length posts), h ++ map (processedCopy config) os).
Proof.
  revert os. induction posts as [|post posts IH]; intros os h Hlive.
  - apply Forall2_nil_inv_l in Hlive as ->. simpl. by rewrite app_nil_r.
  - apply Forall2_cons_inv_l in Hlive as (o & os' & Ho & Hlive & ->).
    cbn [array_map]. unfold st_bind at 1.
    rewrite (processPost_copy config h post o Ho).
    unfold st_bind, st_ret.
    rewrite (IH os' (h ++ [processedCopy config o])).
    + rewrite length_app, Nat.add_1_r. simpl. by rewrite <- app_assoc.
    + eapply Forall2_impl; [apply Hlive|]. intros l x Hx.
      by apply lookup_app_l_Some.
Qed.

(** Reading live references and formatting each object. *)
Lemma array_map_load_objs (f : Post -> string) (ls : list loc) (os : list Post)
    (h : heap) :
  Forall2 (fun l o => h !! l = Some o) ls os ->
  array_map (fun l => (let* o := load l in st_ret (f o))%st) ls h
  = Some (map f os, h).
Proof.
  induction 1 as [|l o ls os Ho _ IH]; [done|].
  cbn [array_map]. unfold st_bind, load, st_ret in *. by rewrite Ho, IH.
Qed.

(** The references handed out for the copies point at the copies. *)
Lemma fresh_refs_live (h fresh : heap) :
  Forall2 (fun l o => (h ++ fresh) !! l = Some o)
          (seq (length h) (length fresh)) fresh.
Proof.
  revert h. induction fresh as [|o fresh IH]; intros h; [constructor|].
  simpl. constructor.
  - by apply list_lookup_middle.
  - specialize (IH (h ++ [o])).
    rewrite length_app, Nat.add_1_r, <- app_assoc in IH. apply IH.
Qed.

(** [processPost] touches the description and the cover image only. *)
Lemma processedCopy_frame config o :
  post_id (processedCopy config o) = post_id o
  /\ title (processedCopy config o) = title o
  /\ slug (processedCopy config o) = slug o
  /\ url (processedCopy config o) = url o
  /\ publishedAt (processedCopy config o) = publishedAt o
  /\ formattedDate (processedCopy config o) = formattedDate o
  /\ author (processedCopy config o) = author o
  /\ tags (processedCopy config o) = tags o
  /\ readTime (processedCopy config o) = readTime o.
Proof.
  unfold processedCopy.
  destruct (str_truthy (description o) && _); simpl;
    destruct (negb (str_truthy (coverImage o))); done.
Qed.

Lemma listItem_processedCopy config o :
  listItem (processedCopy config o) = listItem o.
Proof.
  destruct (processedCopy_frame config o) as (_ & Ht & _ & Hu & _ & Hd & _).
  unfold listItem. by rewrite Ht, Hu, Hd.
Qed.

End RenderMoreFacts.

Module RenderProperties.
Import TemplateService RenderFacts RenderMoreFacts.

(** X12: the copy returned by [processPost] always has a non-empty cover
    image: the original one when there is one, the placeholder otherwise;
    every field other than the description and the cover image is that of
    the original. *)
Theorem processPost_cover_image_and_frame config (h : heap) (post : loc)
    (o : Post) :
  h !! post = Some o ->
  exists processed h' o',
    processPost post config h = Some (processed, h') /\
    h' !! processed = Some o' /\
    coverImage o' <> "" /\
    (coverImage o <> "" -> coverImage o' = coverImage o) /\
    (coverImage o = "" -> coverImage o' = placeholderImage) /\
    post_id o' = post_id o /\ title o' = title o /\ slug o' = slug o /\
    url o' = url o /\ publishedAt o' = publishedAt o /\
    formattedDate o' = formattedDate o /\ author o' = author o /\
    tags o' = tags o /\ readTime o' = readTime o.
Proof.
  intros Hpost. rewrite (processPost_copy config h post o Hpost).
  eexists _, _, _. split; [reflexivity|]. split; [apply lookup_snoc|].
  destruct (processedCopy_frame config o)
    as (H1 & H2 & H3 & H4 & H5 & H6 & H7 & H8 & H9).
  assert (Hc : coverImage (processedCopy config o)
               = if String.eqb (coverImage o) "" then placeholderImage
                 else coverImage o).
  { unfold processedCopy, str_truthy.
    destruct (negb (String.eqb (description o) "") && _); simpl;
      by destruct (String.eqb (coverImage o) ""). }
  rewrite Hc. repeat split; try done.
  - destruct (String.eqb_spec (coverImage o) ""); done.
  - intros Hne. by destruct (String.eqb_spec (coverImage o) "").
  - intros ->. done.
Qed.

Lemma processPost_cover_image_and_frame_witness :
  exists processed h' o',
    processPost 0%nat exampleConfig [examplePost] = Some (processed, h') /\
    h' !! processed = Some o' /\
    coverImage o' = placeholderImage /\ title o' = "Hello world".
Proof.
  destruct (processPost_cover_image_and_frame exampleConfig [examplePost]
              0%nat examplePost eq_refl)
    as (processed & h' & o' & Hrun & Hlook & _ & _ & Hc & _ & Ht & _).
  exists processed, h', o'. repeat split; try done. by apply Hc.
Defined.

(** X13: with a non-negative limit, the description of the copy returned
    by [processPost] is never longer than [descriptionLength] + 3. *)
Theorem processPost_description_bound config (h : heap) (post : loc)
    (o : Post) :
  h !! post = Some o ->
  0 <= descriptionLength config ->
  exists processed h' o',
    processPost post config h = Some (processed, h') /\
    h' !! processed = Some o' /\
    (String.length (description o')
     <= Z.to_nat (descriptionLength config) + 3)%nat.
Proof.
  intros Hpost Hn. rewrite (processPost_copy config h post o Hpost).
  eexists _, _, _. split; [reflexivity|]. split; [apply lookup_snoc|].
  unfold processedCopy.
  assert (Hd : forall p v,
             description (if negb (str_truthy (coverImage p))
                          then set_coverImage v p else p) = description p)
    by (intros p v; by destruct (negb _)).
  rewrite Hd.
  destruct (str_truthy (description o)) eqn:Ht; simpl andb; cbv iota.
  - destruct (Z.gtb_spec (Z.of_nat (String.length (description o)))
                (descriptionLength config)) as [Hgt|Hle].
    + simpl description.
      rewrite <- (Z2Nat.id (descriptionLength config)) at 1 by done.
      rewrite substring_0, str_length_app, str_take_length. simpl. lia.
    + lia.
  - unfold str_truthy in Ht. apply negb_false_iff, String.eqb_eq in Ht.
    rewrite Ht. simpl. lia.
Qed.

Lemma processPost_description_bound_witness :
  exists processed h' o',
    processPost 0%nat (with_descriptionLength 10 exampleConfig) [examplePost]
    = Some (processed, h') /\
    h' !! processed = Some o' /\
    (String.length (description o') <= 13)%nat.
Proof.
  apply (processPost_description_bound (with_descriptionLength 10 exampleConfig)
           [examplePost] 0%nat examplePost eq_refl).
  simpl. lia.
Defined.

(** X14: in the list format, a non-empty list of posts renders as one line
    per post, in input order, each "- **date**: [title](url)" built from the
    input post's own date, title and url, the lines joined by single
    newlines. *)
Theorem list_format_lines config (posts : list loc) (os : list Post)
    (h : heap) :
  displayFormat config = "list" ->
  posts <> [] ->
  Forall2 (fun post o => h !! post = Some o) posts os ->
  exists h',
    generateContent posts config h = Some (join nl (map listItem os), h').
Proof.
  intros Hfmt Hne Hlive. unfold generateContent.
  destruct posts as [|p ps]; [done|]. set (l := p :: ps) in *.
  change (length l =? 0)%nat with false. cbv iota. unfold st_bind at 1.
  rewrite (array_map_processPost_objs config l os h Hlive), Hfmt.
  change (String.eqb "list" "card") with false.
  change (String.eqb "list" "stacked-left") with false.
  change (String.eqb "list" "stacked-right") with false.
  change (String.eqb "list" "list") with true. cbv iota.
  unfold generateList, st_bind, st_ret.
  rewrite (array_map_load_objs listItem _ (map (processedCopy config) os)).
  - eexists. do 3 f_equal. rewrite map_map. apply map_ext.
    intros o. apply listItem_processedCopy.
  - rewrite (Forall2_length _ _ _ Hlive).
    rewrite <- (length_map (processedCopy config) os). apply fresh_refs_live.
Qed.

Lemma list_format_lines_witness :
  exists h',
    generateContent [0%nat; 1%nat] (with_displayFormat "list" exampleConfig)
      [examplePost; scriptPost]
    = Some ("- **Jan 15, 2024**: [Hello world](https://blog.example/hello-world)"
            +:+ nl +:+
            "- **Jan 16, 2024**: [<script>alert(1)</script>](https://blog.example/xss)",
            h').
Proof.
  destruct (list_format_lines (with_displayFormat "list" exampleConfig)
              [0%nat; 1%nat] [examplePost; scriptPost] [examplePost; scriptPost])
    as [h' Hrun].
  - reflexivity.
  - done.
  - repeat constructor.
  - exists h'. exact Hrun.
Defined.

(** X15: a display format outside the five supported ones renders exactly
    as [stacked-left] does. *)
Theorem unknown_format_renders_stacked_left config (posts : list loc)
    (h : heap) :
  ~ In (displayFormat config) ValidationHelper.getSupportedFormats ->
  generateContent posts config h
  = generateContent posts (with_displayFormat "stacked-left" config) h.
Proof.
  intros Hnot. unfold generateContent. simpl displayFormat.
  destruct (length posts =? 0)%nat; [reflexivity|].
  destruct (String.eqb_spec (displayFormat config) "card") as [E|_];
    [exfalso; apply Hnot; rewrite E; simpl; tauto|].
  destruct (String.eqb_spec (displayFormat config) "stacked-left") as [E|_];
    [exfalso; apply Hnot; rewrite E; simpl; tauto|].
  destruct (String.eqb_spec (displayFormat config) "stacked-right") as [E|_];
    [exfalso; apply Hnot; rewrite E; simpl; tauto|].
  destruct (String.eqb_spec (displayFormat config) "list") as [E|_];
    [exfalso; apply Hnot; rewrite E; simpl; tauto|].
  destruct (String.eqb_spec (displayFormat config) "table") as [E|_];
    [exfalso; apply Hnot; rewrite E; simpl; tauto|].
  reflexivity.
Qed.

Lemma unknown_format_renders_stacked_left_witness :
  generateContent [0%nat] (with_displayFormat "grid" exampleConfig) [examplePost]
  = generateContent [0%nat]
      (with_displayFormat "stacked-left" (with_displayFormat "grid" exampleConfig))
      [examplePost].
Proof.
  apply unknown_format_renders_stacked_left. simpl.
  intros [H|[H|[H|[H|[H|[]]]]]]; discriminate H.
Defined.

End RenderProperties.

(** ** The table layout *)

Module TableFacts.
Import TemplateService RenderFacts RenderMoreFacts.

Lemma template_cons x xs : template (x :: xs) = x +:+ template xs.
Proof.
  unfold template. destruct xs as [|y ys]; simpl.
  - by rewrite str_app_nil_r.
  - by rewrite str_app_nil_l.
Qed.

Lemma template_app l1 l2 : template (l1 ++ l2) = template l1 +:+ template l2.
Proof.
  induction l1 as [|x l1 IH]; [done|].
  rewrite <- app_comm_cons, !template_cons, IH. by rewrite str_app_assoc.
Qed.

(** A text that begins and ends with a code unit that is not white space
    is its own trim. *)
Lemma trim_id_ends s c r a d :
  s = String c r -> is_white_space c = false ->
  s = a +:+ String d "" -> is_white_space d = false ->
  trim s = s.
Proof.
  intros Hs1 Hc Hs2 Hd. unfold trim, trimEnd.
  assert (Hstart : trimStart s = s) by (rewrite Hs1; simpl; by rewrite Hc).
  rewrite Hstart. rewrite Hs2 at 1. rewrite rev_snoc. simpl trimStart.
  rewrite Hd, <- rev_snoc, <- Hs2. apply rev_involutive.
Qed.

(** [join] on at least two parts. *)
Lemma join_two sep r1 r2 rest :
  exists tail, join sep (r1 :: r2 :: rest) = r1 +:+ sep +:+ r2 +:+ tail.
Proof.
  unfold join. destruct rest as [|r3 rest].
  - exists "". simpl. by rewrite str_app_nil_r.
  - eexists. simpl. reflexivity.
Qed.

(** A row begins with its opening tag and ends with its closing tag. *)
Lemma tableRow_ends config o :
  (exists B, tableRow config o = "<tr>" +:+ B) /\
  (exists A, tableRow config o = A +:+ "</tr>").
Proof.
  unfold tableRow. split.
  - rewrite template_cons. by eexists.
  - match goal with
    | |- context [template ?l] =>
        change l with (removelast l ++ ["        </tr>"])
    end.
    rewrite template_app.
    change (template ["        </tr>"]) with ("        " +:+ "</tr>").
    eexists. by rewrite <- str_app_assoc.
Qed.

(** What [generateTable] returns on live references: the rows, joined by
    commas, between the head of the table and its closing tags. *)
Lemma generateTable_run config (ls : list loc) (os : list Post) (h : heap) :
  Forall2 (fun l o => h !! l = Some o) ls os ->
  exists pre post,
    generateTable ls config h
    = Some (pre +:+ join "," (map (tableRow config) os) +:+ post, h).
Proof.
  intros Hlive.
  pose proof (array_map_load_objs (tableRow config) ls os h Hlive) as Hrun.
  unfold generateTable, st_bind, st_ret in *. rewrite Hrun. clear Hrun.
  set (rows := join "," (map (tableRow config) os)).
  match goal with
  | |- context [trim (template ?l)] =>
      set (l1 := firstn 16 l); set (l2 := skipn 17 l);
      change l with (l1 ++ [rows] ++ l2)
  end.
  rewrite !template_app.
  change (template [rows]) with rows.
  exists (template l1), (template l2). do 2 f_equal.
  eapply (trim_id_ends _ "<" _
            (template l1 +:+ rows +:+ template (removelast l2) +:+ "</table")
            ">").
  - unfold l1. simpl firstn. rewrite template_cons. reflexivity.
  - reflexivity.
  - rewrite !str_app_assoc. reflexivity.
  - reflexivity.
Qed.

End TableFacts.

Module TableProperties.
Import TemplateService RenderFacts RenderMoreFacts TableFacts.

(** X16: in the table format with two or more posts, consecutive rows are
    separated by a comma: the rendered table contains "</tr>,<tr>". (The
    array of rows is interpolated into the template as it is.) *)
Theorem table_rows_separated_by_commas config (posts : list loc)
    (os : list Post) (h : heap) :
  displayFormat config = "table" ->
  (2 <= length posts)%nat ->
  Forall2 (fun post o => h !! post = Some o) posts os ->
  exists out h',
    generateContent posts config h = Some (out, h') /\
    occurs "</tr>,<tr>" out.
Proof.
  intros Hfmt Hlen Hlive. unfold generateContent.
  destruct posts as [|p ps]; [simpl in Hlen; lia|]. set (l := p :: ps) in *.
  change (length l =? 0)%nat with false. cbv iota. unfold st_bind at 1.
  rewrite (array_map_processPost_objs config l os h Hlive), Hfmt.
  change (String.eqb "table" "card") with false.
  change (String.eqb "table" "stacked-left") with false.
  change (String.eqb "table" "stacked-right") with false.
  change (String.eqb "table" "list") with false.
  change (String.eqb "table" "table") with true. cbv iota.
  pose proof (Forall2_length _ _ _ Hlive) as Hlen'.
  destruct (generateTable_run config (seq (length h) (length l))
              (map (processedCopy config) os)
              (h ++ map (processedCopy config) os))
    as (pre & post & Hrun).
  { rewrite Hlen', <- (length_map (processedCopy config) os).
    apply fresh_refs_live. }
  rewrite Hrun. eexists _, _. split; [reflexivity|].
  apply occurs_app_r, occurs_app_l.
  destruct os as [|o1 [|o2 rest]]; [unfold l in *; simpl in *; lia..|].
  simpl map.
  destruct (join_two "," (tableRow config (processedCopy config o1))
              (tableRow config (processedCopy config o2))
              (map (tableRow config) (map (processedCopy config) rest)))
    as [tail ->].
  destruct (tableRow_ends config (processedCopy config o1)) as [_ [A ->]].
  destruct (tableRow_ends config (processedCopy config o2)) as [[B ->] _].
  exists A, (B +:+ tail). by rewrite !str_app_assoc.
Qed.

Lemma table_rows_separated_by_commas_witness :
  exists out h',
    generateContent [0%nat; 1%nat] (with_displayFormat "table" exampleConfig)
      [examplePost; scriptPost] = Some (out, h') /\
    occurs "</tr>,<tr>" out.
Proof.
  apply (table_rows_separated_by_commas
           (with_displayFormat "table" exampleConfig) [0%nat; 1%nat]
           [examplePost; scriptPost] [examplePost; scriptPost]).
  - reflexivity.
  - simpl. lia.
  - repeat constructor.
Defined.

End TableProperties.

(** ** The merge and the run that uses it *)

Module MergeMoreFacts.
Import BlogController MergeFacts ValidationFacts.

Lemma str_app_inv_head a b c : a +:+ b = a +:+ c -> b = c.
Proof.
  induction a as [|x a IH]; [done|].
  rewrite !str_app_cons. intros H. injection H as H. by apply IH.
Qed.

Lemma str_app_inv_tail a b c : a +:+ c = b +:+ c -> a = b.
Proof.
  intros H. apply (f_equal String.rev) in H. rewrite !rev_app_distr in H.
  apply str_app_inv_head in H.
  by rewrite <- (rev_involutive a), H, rev_involutive.
Qed.

(** Both markers occur in every result of the merge. *)
Lemma update_contains_markers config doc block :
  occurs sectionStart (updateFileContent config doc block) /\
  occurs sectionEnd (updateFileContent config doc block).
Proof.
  assert (Hfull : occurs sectionStart (fullSection config block)
                  /\ occurs sectionEnd (fullSection config block)).
  { rewrite fullSection_eq. split.
    - exists "", (sectionBody config block +:+ sectionEnd). done.
    - exists (sectionStart +:+ sectionBody config block), "".
      by rewrite str_app_nil_r, str_app_assoc. }
  destruct Hfull as [HS HE]. unfold updateFileContent.
  destruct (_ && _); split;
    first [ by apply occurs_app_r, occurs_app_l
          | by do 3 apply occurs_app_r; apply occurs_app_l ].
Qed.

(** The merge of a well-delimited document is delimited. *)
Lemma update_is_delimited config doc block :
  well_delimited doc ->
  ~ occurs sectionEnd block ->
  ~ occurs sectionEnd (sectionTitle config) ->
  exists X Y,
    delimited (updateFileContent config doc block) X (sectionBody config block) Y.
Proof.
  intros Hdoc Hblock Htitle.
  pose proof (sectionBody_no_end config block Hblock Htitle) as Hbody.
  destruct Hdoc as [[HS HE] | (X & old & Y & Hd)].
  - exists (doc +:+ nl +:+ nl), nl.
    rewrite (update_append config doc block)
      by (left; by apply find_first_None).
    split.
    + unfold appended. by rewrite fullSection_eq, !str_app_assoc.
    + repeat split; [| |done]; by apply newlines_no_marker.
  - exists X, Y. rewrite (update_delimited config doc X old Y) by done.
    destruct Hd as (_ & HSX & HEX & _). split; [|done].
    by rewrite fullSection_eq, !str_app_assoc.
Qed.

End MergeMoreFacts.

Module MergeProperties.
Import BlogController MergeFacts MergeMoreFacts.

(** X17: the merge can return the document unchanged only when both
    markers already occur in it; in append mode the result always differs
    from the document, so the caller always writes. *)
Theorem unchanged_only_with_both_markers config doc block :
  updateFileContent config doc block = doc ->
  occurs sectionStart doc /\ occurs sectionEnd doc.
Proof.
  intros Hsame.
  pose proof (update_contains_markers config doc block) as H.
  by rewrite Hsame in H.
Qed.

Lemma unchanged_only_with_both_markers_witness :
  let doc := fullSection exampleConfig "posts" in
  occurs sectionStart doc /\ occurs sectionEnd doc.
Proof.
  apply (unchanged_only_with_both_markers exampleConfig _ "posts").
  reflexivity.
Defined.

(** X18: on a document X + start marker + old + end marker + Y with no
    marker in X and no end marker in old, the merge returns the document
    unchanged exactly when old already is the body of the new section
    (newline, heading, block, newline). *)
Theorem delimited_unchanged_iff_same_body config doc X old Y block :
  delimited doc X old Y ->
  (updateFileContent config doc block = doc <-> old = sectionBody config block).
Proof.
  intros Hd. rewrite (update_delimited config doc X old Y block Hd).
  destruct Hd as (-> & _). rewrite fullSection_eq, !str_app_assoc. split.
  - intros H. do 2 apply str_app_inv_head in H.
    symmetry. by apply str_app_inv_tail in H.
  - by intros ->.
Qed.

Lemma delimited_unchanged_iff_same_body_witness :
  updateFileContent exampleConfig
    ("# Readme" +:+ fullSection exampleConfig "posts" +:+ "footer") "posts"
  = "# Readme" +:+ fullSection exampleConfig "posts" +:+ "footer".
Proof.
  apply (delimited_unchanged_iff_same_body exampleConfig _ "# Readme"
           (sectionBody exampleConfig "posts") "footer" "posts").
  - split; [reflexivity|].
    repeat split; apply find_first_None; reflexivity.
  - reflexivity.
Defined.

(** X19: the merge keeps documents well delimited: when the document has
    no markers or one section bounded by its first start and first end
    marker, and neither the block nor the title contains the end marker, the
    result has one section: it is X + start marker + new body + end marker
    + Y with no marker in X and no end marker in the body, the body being
    that of the new section. *)
Theorem merge_keeps_well_delimited config doc block :
  well_delimited doc ->
  ~ occurs sectionEnd block ->
  ~ occurs sectionEnd (sectionTitle config) ->
  exists X Y,
    delimited (updateFileContent config doc block) X
      (sectionBody config block) Y.
Proof. apply update_is_delimited. Qed.

Lemma merge_keeps_well_delimited_witness :
  exists X Y,
    delimited (updateFileContent exampleConfig "# Readme" "posts") X
      (sectionBody exampleConfig "posts") Y.
Proof.
  apply merge_keeps_well_delimited.
  - left. split; apply find_first_None; reflexivity.
  - apply find_first_None; reflexivity.
  - apply find_first_None; reflexivity.
Defined.

End MergeProperties.

Module ExecuteProperties.
Import BlogController MergeFacts MergeMoreFacts.

(** X20: whenever [execute] calls [updateFile], the config had passed
    validation, the fetch had returned at least one post, and the content
    written to [config.filename] is the merge of the rendered posts into the
    file content just read; it differs from that content and contains both
    markers. *)
Theorem execute_writes_the_merge services config path content message :
  In (UpdateFile path content message) (fst (execute services config)) ->
  ValidationHelper.validateInputs config = Normal tt
  /\ path = filename config
  /\ exists posts current block h',
       fetchBlogPosts services (publicationName config) (postCount config)
       = Normal posts
       /\ posts <> []
       /\ TemplateService.generateContent (seq 0 (length posts)) config posts
          = Some (block, h')
       /\ getFileContent services (filename config) = Normal current
       /\ content = updateFileContent config current block
       /\ content <> current
       /\ occurs sectionStart content /\ occurs sectionEnd content.
Proof.
  unfold execute.
  destruct (ValidationHelper.validateInputs config) as [[]|e]; [|by intros []].
  destruct (fetchBlogPosts _ _ _) as [posts|e];
    [|by intros [H|[]]].
  destruct posts as [|p ps]; [intros [H|[H|[H|[]]]]; discriminate H|].
  set (l := p :: ps). change (length l =? 0)%nat with false. cbv iota.
  destruct (TemplateService.generateContent (seq 0 (length l)) config l)
    as [[block h']|] eqn:Hgen; [|by intros [H|[]]].
  destruct (getFileContent _ _) as [current|e];
    [|by intros [H|[H|[]]]].
  destruct (String.eqb_spec current (updateFileContent config current block))
    as [|Hchanged]; [intros [H|[H|[H|[H|[]]]]]; discriminate H|].
  assert (Hgoal : forall path' content' message0 message',
             UpdateFile (filename config)
               (updateFileContent config current block) message0
             = UpdateFile path' content' message' ->
             Normal tt = Normal tt
             /\ path' = filename config
             /\ exists posts current0 block0 h'0,
                  Normal l = Normal posts /\ posts <> []
                  /\ TemplateService.generateContent
                       (seq 0 (length posts)) config posts
                     = Some (block0, h'0)
                  /\ Normal current = Normal current0
                  /\ content' = updateFileContent config current0 block0
                  /\ content' <> current0
                  /\ occurs sectionStart content'
                  /\ occurs sectionEnd content').
  { intros path' content' message0 message' H. injection H as <- <- _.
    split; [done|]. split; [done|].
    exists l, current, block, h'.
    destruct (update_contains_markers config current block) as [HS HE].
    repeat split; done. }
  destruct (updateFile _ _ _ _) as [sha|e]; simpl fst.
  - intros [H|[H|[H|[H|[H|[H|[]]]]]]]; try discriminate H. by eapply Hgoal.
  - intros [H|[H|[H|[]]]]; try discriminate H. by eapply Hgoal.
Qed.

Lemma execute_writes_the_merge_witness :
  let config := with_displayFormat "list" exampleConfig in
  let services :=
    mkServices (fun _ _ => Normal [examplePost]) (fun _ => Normal "# Readme")
               (fun _ _ _ => Normal "sha") in
  exists posts current block h',
    fetchBlogPosts services (publicationName config) (postCount config)
    = Normal posts
    /\ posts <> []
    /\ TemplateService.generateContent (seq 0 (length posts)) config posts
       = Some (block, h')
    /\ getFileContent services (filename config) = Normal current
    /\ updateFileContent config "# Readme"
         "- **Jan 15, 2024**: [Hello world](https://blog.example/hello-world)"
       = updateFileContent config current block
    /\ updateFileContent config "# Readme"
         "- **Jan 15, 2024**: [Hello world](https://blog.example/hello-world)"
       <> current
    /\ occurs sectionStart
         (updateFileContent config "# Readme"
            "- **Jan 15, 2024**: [Hello world](https://blog.example/hello-world)")
    /\ occurs sectionEnd
         (updateFileContent config "# Readme"
            "- **Jan 15, 2024**: [Hello world](https://blog.example/hello-world)").
Proof.
  intros config services.
  apply (execute_writes_the_merge services config "README.md"
           (updateFileContent config "# Readme"
              "- **Jan 15, 2024**: [Hello world](https://blog.example/hello-world)")
           "Update blog posts (1 posts)").
  right. right. left. reflexivity.
Defined.

(** X21: no service is called before validation passes; [updateFile] is
    called at most once in a run; and outputs are set only by runs that
    complete normally. *)
Theorem execute_call_discipline services config :
  (forall e, ValidationHelper.validateInputs config = Throw e ->
             execute services config = ([], Throw e))
  /\ (forall i j p1 c1 m1 p2 c2 m2,
         fst (execute services config) !! i = Some (UpdateFile p1 c1 m1) ->
         fst (execute services config) !! j = Some (UpdateFile p2 c2 m2) ->
         i = j)
  /\ (forall name v,
         In (SetOutput name v) (fst (execute services config)) ->
         snd (execute services config) = Normal tt).
Proof.
  unfold execute. split; [by intros e ->|].
  destruct (ValidationHelper.validateInputs config) as [[]|e];
    [|split; [by intros [] [] |by intros ? ? []]].
  destruct (fetchBlogPosts _ _ _) as [posts|e];
    [|split; [by intros [|[]] [|[]]|by intros ? ? [H|[]]]].
  destruct (length posts =? 0)%nat;
    [split; [by intros [|[|[|[]]]] [|[|[|[]]]]|done]|].
  destruct (TemplateService.generateContent _ _ _) as [[block h']|];
    [|split; [by intros [|[]] [|[]]|by intros ? ? [H|[]]]].
  destruct (getFileContent _ _) as [current|e];
    [|split; [by intros [|[|[]]] [|[|[]]]|by intros ? ? [H|[H|[]]]]].
  destruct (String.eqb _ _);
    [split; [by intros [|[|[|[|[]]]]] [|[|[|[|[]]]]]|done]|].
  destruct (updateFile _ _ _ _) as [sha|e]; simpl fst; simpl snd.
  - split; [|done].
    by intros [|[|[|[|[|[|[]]]]]]] [|[|[|[|[|[|[]]]]]]].
  - split; [by intros [|[|[|[]]]] [|[|[|[]]]]|].
    by intros ? ? [H|[H|[H|[]]]].
Qed.

Lemma execute_call_discipline_witness :
  execute (mkServices (fun _ _ => Normal [examplePost])
                      (fun _ => Normal "") (fun _ _ _ => Normal "sha"))
          (with_displayFormat "grid" exampleConfig)
  = ([], Throw "Unsupported display format: grid. Supported formats: card, stacked-left, stacked-right, list, table").
Proof.
  apply (proj1 (execute_call_discipline _ _)). reflexivity.
Defined.

(** X22: a second run is a no-op. When the file already holds the merge of
    the rendered posts into a well-delimited document, and neither the
    rendered block nor the section title contains the end marker, a run that
    fetches the same posts calls [updateFile] not at all: it reads the file,
    reports the post count and [file_updated = false]. *)
Theorem execute_second_run_writes_nothing services config posts block h' doc :
  ValidationHelper.validateInputs config = Normal tt ->
  fetchBlogPosts services (publicationName config) (postCount config)
  = Normal posts ->
  posts <> [] ->
  TemplateService.generateContent (seq 0 (length posts)) config posts
  = Some (block, h') ->
  well_delimited doc ->
  ~ occurs sectionEnd block ->
  ~ occurs sectionEnd (sectionTitle config) ->
  getFileContent services (filename config)
  = Normal (updateFileContent config doc block) ->
  execute services config
  = ([FetchBlogPosts (publicationName config) (postCount config);
      GetFileContent (filename config);
      SetOutput "posts_count" (ValidationHelper.num (Z.of_nat (length posts)));
      SetOutput "file_updated" (JsBool false)],
     Normal tt).
Proof.
  intros Hvalid Hfetch Hne Hrender Hdoc Hblock Htitle Hread.
  unfold execute. rewrite Hvalid, Hfetch.
  destruct posts as [|p ps]; [done|]. set (l := p :: ps) in *.
  change (length l =? 0)%nat with false. cbv iota.
  rewrite Hrender, Hread.
  destruct (update_is_delimited config doc block Hdoc Hblock Htitle)
    as (X & Y & Hd).
  rewrite (update_delimited config _ X (sectionBody config block) Y block Hd).
  destruct Hd as (Heq & _).
  assert (Hsame : X +:+ fullSection config block +:+ Y
                  = updateFileContent config doc block)
    by (by rewrite Heq, fullSection_eq, !str_app_assoc).
  rewrite Hsame, String.eqb_refl. reflexivity.
Qed.

Lemma execute_second_run_writes_nothing_witness :
  let services :=
    mkServices (fun _ _ => Normal [examplePost])
               (fun _ =>
                  Normal (updateFileContent
                            (with_displayFormat "list" exampleConfig) "# Readme"
                            "- **Jan 15, 2024**: [Hello world](https://blog.example/hello-world)"))
               (fun _ _ _ => Normal "sha") in
  execute services (with_displayFormat "list" exampleConfig)
  = ([FetchBlogPosts "my-awesome-blog" 6;
      GetFileContent "README.md";
      SetOutput "posts_count" (ValidationHelper.num 1);
      SetOutput "file_updated" (JsBool false)],
     Normal tt).
Proof.
  intros services.
  apply (execute_second_run_writes_nothing services
           (with_displayFormat "list" exampleConfig) [examplePost]
           "- **Jan 15, 2024**: [Hello world](https://blog.example/hello-world)"
           [examplePost; TemplateService.processedCopy exampleConfig examplePost]
           "# Readme").
  - reflexivity.
  - reflexivity.
  - done.
  - reflexivity.
  - left. split; apply find_first_None; reflexivity.
  - apply find_first_None; reflexivity.
  - apply find_first_None; reflexivity.
  - reflexivity.
Defined.

(** X23: the [date_format] option has no effect on a run: with the same
    services, two configs that differ only in [dateFormat] make the same
    calls, write the same content and complete the same way. *)
Theorem execute_ignores_dateFormat services config (fmt : string) :
  execute services (with_dateFormat fmt config) = execute services config.
Proof. reflexivity. Qed.

End ExecuteProperties.


(** ** Dates and the post normalizer *)

Module DateProperties.
Import DateHelper.

Section WithMoment.

Variable Moment : Type.
Variable moment : JsValue -> Completion Moment.
Variable moment_now : Completion Moment.
Variable isValid : Moment -> Completion bool.
Variable moment_format : Moment -> string -> Completion string.
Variable diff : Moment -> Moment -> string -> Completion Z.

Abbreviation formatDate :=
  (DateHelper.formatDate Moment moment moment_now isValid moment_format diff).
Abbreviation parseDate := (DateHelper.parseDate Moment moment isValid).
Abbreviation isValidDate := (DateHelper.isValidDate Moment moment isValid).
Abbreviation toUrlSlug :=
  (DateHelper.toUrlSlug Moment moment isValid moment_format).
Abbreviation transformPost :=
  (HashnodeService.transformPost Moment moment moment_now isValid
     moment_format diff).

Lemma formatDate_returns (date : JsValue) (format : option string) :
  exists s, formatDate date format = Normal s.
Proof.
  unfold DateHelper.formatDate.
  destruct (truthy date); [|by eexists]. simpl negb. cbv iota.
  destruct (moment date) as [m|e]; [|by eexists].
  simpl cbind. destruct (isValid m) as [[|]|e]; try by eexists.
  simpl cbind. simpl negb. cbv iota.
  destruct (String.eqb _ _).
  - destruct (getRelativeTime _ _ _ _) as [s|e]; by eexists.
  - destruct (moment_format _ _) as [s|e]; by eexists.
Qed.

(** X24: for a present date and a format other than [relative], an
    exception thrown by moment while parsing, validating or formatting is
    turned into the string "Error formatting date"; when nothing throws and
    the moment is valid, the result is exactly what moment's [format]
    returns; and an omitted format means "MMM DD, YYYY". *)
Theorem formatDate_exceptions_and_result (date : JsValue) (fmt : string) :
  truthy date = true ->
  String.eqb fmt "relative" = false ->
  ((exists e, moment date = Throw e) ->
   formatDate date (Some fmt) = Normal "Error formatting date")
  /\ (forall m e, moment date = Normal m -> isValid m = Throw e ->
      formatDate date (Some fmt) = Normal "Error formatting date")
  /\ (forall m e, moment date = Normal m -> isValid m = Normal true ->
      moment_format m fmt = Throw e ->
      formatDate date (Some fmt) = Normal "Error formatting date")
  /\ (forall m s, moment date = Normal m -> isValid m = Normal true ->
      moment_format m fmt = Normal s ->
      formatDate date (Some fmt) = Normal s)
  /\ formatDate date None = formatDate date (Some "MMM DD, YYYY").
Proof.
  intros Ht Hfmt. unfold DateHelper.formatDate. rewrite Ht. simpl negb.
  cbv iota. simpl default. rewrite Hfmt. repeat split.
  - intros [e ->]. reflexivity.
  - intros m e -> Hv. simpl. by rewrite Hv.
  - intros m e -> Hv Hf. simpl. rewrite Hv. simpl. by rewrite Hf.
  - intros m s -> Hv Hf. simpl. rewrite Hv. simpl. by rewrite Hf.
Qed.

(** X25: [isValidDate] never throws, whatever moment does; it answers true
    exactly for a truthy date that moment parses, without throwing, into a
    valid moment; and [toUrlSlug] of a date that is not valid is the empty
    string. *)
Theorem isValidDate_total (date : JsValue) :
  (exists b, isValidDate date = Normal b)
  /\ (isValidDate date = Normal true <->
      truthy date = true
      /\ exists m, moment date = Normal m /\ isValid m = Normal true)
  /\ (isValidDate date = Normal false -> toUrlSlug date = Normal "").
Proof.
  unfold DateHelper.isValidDate, DateHelper.toUrlSlug, DateHelper.parseDate.
  destruct (truthy date); simpl negb; cbv iota.
  - destruct (moment date) as [m|e]; simpl.
    + destruct (isValid m) as [[|]|e] eqn:Hvalid; simpl.
      * split; [by eexists|]. split; [|done].
        split; [intros _; split; [done|by exists m]|done].
      * split; [by eexists|]. split; [|done].
        split; [done|]. intros [_ (m' & Hm & Hv)].
        injection Hm as <-. congruence.
      * split; [by eexists|]. split; [|done].
        split; [done|]. intros [_ (m' & Hm & Hv)].
        injection Hm as <-. congruence.
    + split; [by eexists|]. split; [|done].
      split; [done|]. intros [_ (m' & Hm & Hv)]. discriminate Hm.
  - simpl. split; [by eexists|]. split; [|done].
    split; [done|]. by intros [? _].
Qed.

(** X26: [transformPost] never throws, whatever moment does, and the post
    it builds has a non-empty title ("Untitled" when the API gives none) and
    a non-empty author name ("Unknown Author" when the API gives none); a
    non-empty API title is kept, a missing read time is 0, missing tags are
    the empty list, and id, slug, url and publication date are copied. *)
Theorem transformPost_defaults (post : HashnodeService.RawPost) :
  exists p,
    transformPost post = Normal p
    /\ title p <> ""
    /\ author_name (author p) <> ""
    /\ (forall t, HashnodeService.raw_title post = Some t -> t <> "" ->
                  title p = t)
    /\ (HashnodeService.raw_title post = None -> title p = "Untitled")
    /\ (HashnodeService.raw_author post = None ->
        author p = mkAuthor "Unknown Author" "")
    /\ (HashnodeService.raw_coverImage post = None -> coverImage p = "")
    /\ (HashnodeService.raw_readTimeInMinutes post = None -> readTime p = 0)
    /\ (HashnodeService.raw_tags post = None -> tags p = [])
    /\ post_id p = HashnodeService.raw_id post
    /\ slug p = HashnodeService.raw_slug post
    /\ url p = HashnodeService.raw_url post
    /\ publishedAt p = HashnodeService.raw_publishedAt post.
Proof.
  unfold HashnodeService.transformPost.
  destruct (formatDate_returns (HashnodeService.raw_publishedAt post) None)
    as [s ->].
  simpl cbind. eexists. split; [reflexivity|]. simpl.
  assert (Hor : forall x d, d <> "" -> HashnodeService.opt_or x d <> "").
  { intros [t|] d Hd; [|done]. unfold HashnodeService.opt_or, str_or, str_truthy.
    by destruct (String.eqb_spec t ""). }
  repeat split; try done.
  - by apply Hor.
  - by apply Hor.
  - intros t -> Ht. unfold HashnodeService.opt_or, str_or, str_truthy.
    by destruct (String.eqb_spec t "").
  - by intros ->.
  - by intros ->.
  - by intros ->.
  - by intros ->.
  - by intros ->.
Qed.

End WithMoment.

Lemma formatDate_exceptions_and_result_witness :
  DateHelper.formatDate unit (fun _ => Throw "moment") (Normal tt)
    (fun _ => Normal true) (fun _ _ => Normal "Jan 15, 2024")
    (fun _ _ _ => Normal 0) (JsStr "2024-01-15") (Some "MMM DD, YYYY")
  = Normal "Error formatting date".
Proof.
  apply (proj1 (formatDate_exceptions_and_result unit (fun _ => Throw "moment")
                  (Normal tt) (fun _ => Normal true)
                  (fun _ _ => Normal "Jan 15, 2024") (fun _ _ _ => Normal 0)
                  (JsStr "2024-01-15") "MMM DD, YYYY" eq_refl eq_refl)).
  by exists "moment".
Defined.

Lemma isValidDate_total_witness :
  DateHelper.toUrlSlug unit (fun _ => Normal tt) (fun _ => Normal false)
    (fun _ _ => Normal "2024-01-15") (JsStr "yesterday")
  = Normal "".
Proof.
  apply (proj2 (proj2 (isValidDate_total unit (fun _ => Normal tt)
                         (fun _ => Normal false)
                         (fun _ _ => Normal "2024-01-15") (JsStr "yesterday")))).
  reflexivity.
Defined.

Lemma transformPost_defaults_witness :
  exists p,
    HashnodeService.transformPost unit (fun _ => Normal tt) (Normal tt)
      (fun _ => Normal true) (fun _ _ => Normal "Jan 15, 2024")
      (fun _ _ _ => Normal 0)
      (HashnodeService.mkRawPost "65a1" None None "hello" "https://b/hello"
         (JsStr "2024-01-15") None None None None)
    = Normal p
    /\ title p = "Untitled" /\ author p = mkAuthor "Unknown Author" "".
Proof.
  destruct (transformPost_defaults unit (fun _ => Normal tt) (Normal tt)
              (fun _ => Normal true) (fun _ _ => Normal "Jan 15, 2024")
              (fun _ _ _ => Normal 0)
              (HashnodeService.mkRawPost "65a1" None None "hello"
                 "https://b/hello" (JsStr "2024-01-15") None None None None))
    as (p & Hrun & _ & _ & _ & Ht & Ha & _).
  exists p. split; [done|]. split; [by apply Ht|by apply Ha].
Defined.

End DateProperties.
